(** * The profile store of the dashboard front end

    A shallow embedding of [src/api.js] (class [UserAPI]): the profile
    cache, the subscriber set, the fetch / update / invalidate operations,
    the avatar URL rule and one tick of the simulated periodic refresh,
    followed by the properties the specification states about them.

    Conventions of the embedding.
    - A JavaScript string is the list of its UTF-16 code units.
    - A JavaScript object used as a record (a profile, a JSON object) is a
      finite map from property names to values; the cache, a [Map] keyed
      by strings, is a finite map as well.
    - The subscriber [Set] is the list of its members in insertion order,
      without repetition; a callback is known by its object identity.
    - A method of the class is a computation over the store that may
      throw, and that records what it does to the outside world (network
      requests, [console.error] lines, callback invocations) in a trace.
    - An [async] method that awaits the network is cut at the [await]:
      the part run at the call, and the part run when the reply arrives. *)

From Stdlib Require Import ZArith NArith List String Ascii Lia.
From stdpp Require Import gmap strings list fin_maps pretty.

Set Warnings "-register-all".

(** ** The fragment of the JavaScript runtime the store relies on *)

Module JS.

Abbreviation jsstring := (list N).

(** A literal of the source, as code units. *)
Definition js (s : string) : jsstring :=
  List.map N_of_ascii (list_ascii_of_string s).
Arguments js : simpl never.

(** Values: the JSON values a response body parses to, and [undefined].
    Numbers are the integers: the store prints them and tests them for
    zero, nothing else. [VNum z] stands for the number [z] where a double
    holds [z] exactly, which is guaranteed for the safe integers
    ([isSafeInteger] below). [VObj] is a plain object, one whose own
    properties do not shadow [toString] or [valueOf]. *)
Inductive JSValue :=
| VUndefined
| VNull
| VBool (b : bool)
| VNum (z : Z)
| VStr (s : jsstring)
| VArr (l : list JSValue)
| VObj (o : gmap jsstring JSValue).

(** What a [throw] carries. [Error_ m] is [new Error(m)]; the others are
    raised by the runtime itself or by a collaborator. *)
Inductive JSError :=
| Error_ (message : jsstring)
| TypeError_
| URIError_
| SyntaxError_
| FetchRejected
| Thrown (v : JSValue).

(** ToBoolean. *)
Definition truthy (v : JSValue) : bool :=
  match v with
  | VUndefined | VNull => false
  | VBool b => b
  | VNum z => negb (z =? 0)%Z
  | VStr s => match s with [] => false | _ => true end
  | VArr _ | VObj _ => true
  end.

(** [a || b] *)
Definition or_else (a b : JSValue) : JSValue := if truthy a then a else b.

(** [Array.prototype.join] on an array of strings. *)
Fixpoint join (sep : jsstring) (l : list jsstring) : jsstring :=
  match l with
  | [] => []
  | w :: ws => match ws with [] => w | _ => w ++ sep ++ join sep ws end
  end.

(** [Number.isSafeInteger] on an integer: at most [2^53 - 1] in absolute
    value. These are the integers a double tells apart from their
    neighbours, and ToString prints every digit of them. *)
Definition isSafeInteger (z : Z) : Prop :=
  (- (2 ^ 53 - 1) ≤ z ≤ 2 ^ 53 - 1)%Z.

(** ToString, as a template literal applies it. A number is printed in
    full, which is what the runtime does for a safe integer (beyond
    [2^53] it prints the shortest digits of the double, and from [1e21] on
    the exponent form); a plain object gives ["[object Object]"]. *)
Fixpoint toString (v : JSValue) : jsstring :=
  match v with
  | VUndefined => js "undefined"
  | VNull => js "null"
  | VBool b => if b then js "true" else js "false"
  | VNum z => js (pretty z)
  | VStr s => s
  | VArr l =>
      join (js ",")
        (List.map (fun x => match x with
                            | VUndefined | VNull => []
                            | _ => toString x
                            end) l)
  | VObj _ => js "[object Object]"
  end.

(** [v.k] for a property name [k] that no prototype defines (the store
    reads [id], [name], [email], [username], [phone], [website] and
    [company]): the own property of an object, [undefined] on any other
    value, a TypeError on [null] and [undefined]. *)
Definition get (v : JSValue) (k : jsstring) : JSError + JSValue :=
  match v with
  | VUndefined | VNull => inl TypeError_
  | VObj o => inr (default VUndefined (o !! k))
  | _ => inr VUndefined
  end.

(** [v?.k] *)
Definition get_opt (v : JSValue) (k : jsstring) : JSValue :=
  match get v k with inl _ => VUndefined | inr x => x end.

(** [{...v}]: the own enumerable properties a spread copies. A string
    and an array spread their indices; other primitives spread nothing. *)
Definition indexed {A} (f : A → JSValue) (l : list A) : gmap jsstring JSValue :=
  list_to_map (imap (fun i x => (js (pretty i), f x)) l).

Definition spread (v : JSValue) : gmap jsstring JSValue :=
  match v with
  | VObj o => o
  | VArr l => indexed id l
  | VStr s => indexed (fun c => VStr [c]) s
  | _ => ∅
  end.

(** *** Strings *)

(** [s.split(sep)] for a separator of one code unit. *)
Fixpoint split (sep : N) (s : jsstring) : list jsstring :=
  match s with
  | [] => [[]]
  | c :: r =>
      if (c =? sep)%N then [] :: split sep r
      else match split sep r with
           | w :: ws => (c :: w) :: ws
           | [] => [[c]]
           end
  end.

Definition charAt (i : nat) (s : jsstring) : jsstring :=
  match s !! i with Some c => [c] | None => [] end.

Definition substring (a b : nat) (s : jsstring) : jsstring :=
  take (Nat.max a b - Nat.min a b) (drop (Nat.min a b) s).

Definition is_ascii (c : N) : bool := (c <? 128)%N.

Definition ascii_upper (c : N) : N :=
  if ((97 <=? c) && (c <=? 122))%N then (c - 32)%N else c.

(** [s.toUpperCase()]. On ASCII text it is the letter-wise map; on other
    text it is whatever the Unicode tables of the host say, [unicode]. *)
Definition toUpperCase (unicode : jsstring → jsstring) (s : jsstring) : jsstring :=
  if forallb is_ascii s then List.map ascii_upper s else unicode s.

(** *** encodeURIComponent *)

Definition in_range (lo hi c : N) : bool := ((lo <=? c) && (c <=? hi))%N.

(** Letters, digits and [- _ . ! ~ * ' ( )] are left as they are. *)
Definition unescaped (c : N) : bool :=
  in_range 65 90 c || in_range 97 122 c || in_range 48 57 c
  || bool_decide (c ∈ js "-_.!~*'()").

Definition is_lead (c : N) : bool := in_range 55296 56319 c.
Definition is_trail (c : N) : bool := in_range 56320 57343 c.

Definition hex_digit (n : N) : N :=
  if (n <? 10)%N then (48 + n)%N else (55 + n)%N.

Definition percent (octet : N) : jsstring :=
  [37; hex_digit (octet / 16); hex_digit (octet mod 16)]%N.

Definition utf8 (cp : N) : list N :=
  (if cp <? 128 then [cp]
   else if cp <? 2048 then [192 + cp / 64; 128 + cp mod 64]
   else if cp <? 65536 then
     [224 + cp / 4096; 128 + (cp / 64) mod 64; 128 + cp mod 64]
   else
     [240 + cp / 262144; 128 + (cp / 4096) mod 64;
      128 + (cp / 64) mod 64; 128 + cp mod 64])%N.

Definition escape (cp : N) : jsstring := concat (List.map percent (utf8 cp)).

(** [None] is the URIError raised on a surrogate without its partner. *)
Fixpoint encodeURIComponent (s : jsstring) : option jsstring :=
  match s with
  | [] => Some []
  | c :: r =>
      if unescaped c then cons c <$> encodeURIComponent r
      else if is_trail c then None
      else if is_lead c then
        match r with
        | d :: r' =>
            if is_trail d then
              app (escape ((c - 55296) * 1024 + (d - 56320) + 65536)%N)
                <$> encodeURIComponent r'
            else None
        | [] => None
        end
      else app (escape c) <$> encodeURIComponent r
  end.

(** [s.isWellFormed()]: no surrogate without its partner. *)
Fixpoint isWellFormed (s : jsstring) : bool :=
  match s with
  | [] => true
  | c :: r =>
      if is_trail c then false
      else if is_lead c then
        match r with
        | d :: r' => is_trail d && isWellFormed r'
        | [] => false
        end
      else isWellFormed r
  end.

Fixpoint startsWith (w s : jsstring) : bool :=
  match w, s with
  | [], _ => true
  | a :: w', b :: s' => (a =? b)%N && startsWith w' s'
  | _ :: _, [] => false
  end.

(** [s.includes(w)] *)
Fixpoint includes (w s : jsstring) : bool :=
  startsWith w s || match s with [] => false | _ :: r => includes w r end.

(** [a < b] on strings: by code units, a proper prefix first. *)
Fixpoint string_lt (a b : jsstring) : bool :=
  match a, b with
  | _, [] => false
  | [], _ :: _ => true
  | x :: a', y :: b' => (x <? y)%N || ((x =? y)%N && string_lt a' b')
  end.

(** *** Date.prototype.toISOString *)

(** [w] decimal digits of [n], most significant first. *)
Fixpoint digits (w : nat) (n : Z) : jsstring :=
  match w with
  | O => []
  | S w' => digits w' (n / 10) ++ [Z.to_N (48 + n mod 10)]
  end.

(** The civil date of a day number counted from 1970-01-01. *)
Definition civil (day : Z) : Z * Z * Z :=
  let z := (day + 719468)%Z in
  let era := (z / 146097)%Z in
  let doe := (z mod 146097)%Z in
  let yoe := ((doe - doe / 1460 + doe / 36524 - doe / 146096) / 365)%Z in
  let doy := (doe - (365 * yoe + yoe / 4 - yoe / 100))%Z in
  let mp := ((5 * doy + 2) / 153)%Z in
  let d := (doy - (153 * mp + 2) / 5 + 1)%Z in
  let m := (if mp <? 10 then mp + 3 else mp - 9)%Z in
  let y := (yoe + era * 400 + (if m <=? 2 then 1 else 0))%Z in
  (y, m, d).

(** [new Date(t).toISOString()] for [t] milliseconds since the epoch. *)
Definition toISOString (t : Z) : jsstring :=
  let day := (t / 86400000)%Z in
  let ms := (t mod 86400000)%Z in
  let '(y, m, d) := civil day in
  let year :=
    if ((0 <=? y) && (y <=? 9999))%Z then digits 4 y
    else (if (y <? 0)%Z then js "-" else js "+") ++ digits 6 (Z.abs y) in
  year ++ js "-" ++ digits 2 m ++ js "-" ++ digits 2 d ++ js "T"
    ++ digits 2 (ms / 3600000) ++ js ":" ++ digits 2 ((ms / 60000) mod 60)
    ++ js ":" ++ digits 2 ((ms / 1000) mod 60) ++ js "." ++ digits 3 (ms mod 1000)
    ++ js "Z".

End JS.

Import JS (jsstring, js, JSValue(..), JSError(..)).

(** ** The outside world: network, console, subscribers *)

Inductive Method := GET | PUT.

(** What [fetch(url, options)] sends. The body is the value handed to
    [JSON.stringify]. *)
Record Request := {
  req_method : Method;
  req_url : jsstring;
  req_headers : list (jsstring * jsstring);
  req_body : option JSValue
}.

(** What the awaited [fetch] comes back with: a rejection (transport
    failure), or a response with its status and the value its body
    parses to ([None]: the body is not JSON, [response.json()] rejects). *)
Inductive Reply :=
| Rejected
| Response (status : Z) (body : option JSValue).

(** [response.ok] *)
Definition ok (status : Z) : bool := ((200 <=? status) && (status <=? 299))%Z.

Abbreviation Profile := (gmap jsstring JSValue).

(** A subscriber callback, by the identity of its function object. *)
Definition Callback := nat.

Inductive Event :=
| Fetch (r : Request)
| ConsoleError (label : jsstring) (e : JSError)
| Call (cb : Callback) (arg : Profile).

(** ** The store and its computations *)

Record Store := {
  cache : gmap jsstring Profile;
  subscribers : list Callback
}.

Definition new_UserAPI : Store := {| cache := ∅; subscribers := [] |}.

Definition baseURL : jsstring := js "https://jsonplaceholder.typicode.com".

Inductive Outcome (A : Type) :=
| Returns (a : A)
| Throws (e : JSError).
Arguments Returns {A} a.
Arguments Throws {A} e.

(** A computation reads and writes the store, returns or throws, and
    leaves a trace. *)
Definition M (A : Type) : Type := Store → Outcome A * Store * list Event.

#[export] Instance M_ret : MRet M := λ A a st, (Returns a, st, []).

#[export] Instance M_bind : MBind M := λ A B k m st,
  match m st with
  | (Returns a, st1, t1) => let '(r, st2, t2) := k a st1 in (r, st2, t1 ++ t2)
  | (Throws e, st1, t1) => (Throws e, st1, t1)
  end.

(** Evaluation that may throw but touches neither store nor world. *)
#[export] Instance throwing_ret : MRet (sum JSError) := λ A a, inr a.

#[export] Instance throwing_bind : MBind (sum JSError) := λ A B k m,
  match m with inl e => inl e | inr a => k a end.

Definition throw {A} (e : JSError) : M A := λ st, (Throws e, st, []).

(** [try { m } catch (error) { h error }] *)
Definition try_catch {A} (m : M A) (h : JSError → M A) : M A := λ st,
  match m st with
  | (Throws e, st1, t1) => let '(r, st2, t2) := h e st1 in (r, st2, t1 ++ t2)
  | r => r
  end.

Definition lift {A} (r : JSError + A) : M A :=
  match r with inl e => throw e | inr a => mret a end.

Definition emit (ev : Event) : M unit := λ st, (Returns tt, st, [ev]).

Definition console_error (label : string) (e : JSError) : M unit :=
  emit (ConsoleError (js label) e).

Definition cache_get (k : jsstring) : M (option Profile) :=
  λ st, (Returns (cache st !! k), st, []).

(** [st] with [p] stored under [key]. *)
Definition store_with (key : jsstring) (p : Profile) (st : Store) : Store :=
  {| cache := <[key := p]> (cache st); subscribers := subscribers st |}.

Definition cache_set (k : jsstring) (p : Profile) : M unit :=
  λ st, (Returns tt, store_with k p st, []).

Definition cache_delete (k : jsstring) : M unit :=
  λ st, (Returns tt,
         {| cache := delete k (cache st); subscribers := subscribers st |}, []).

Definition cache_clear : M unit :=
  λ st, (Returns tt, {| cache := ∅; subscribers := subscribers st |}, []).

(** [Set.prototype.add] and [Set.prototype.delete] on the subscriber
    set: a member is not added again, and keeps its place. *)
Definition set_add (cb : Callback) (s : list Callback) : list Callback :=
  if decide (cb ∈ s) then s else s ++ [cb].

Definition set_delete (cb : Callback) (s : list Callback) : list Callback :=
  filter (λ c, c ≠ cb) s.

Definition subscribers_add (cb : Callback) : M unit :=
  λ st, (Returns tt,
         {| cache := cache st; subscribers := set_add cb (subscribers st) |},
         []).

Definition subscribers_delete (cb : Callback) : M unit :=
  λ st, (Returns tt,
         {| cache := cache st; subscribers := set_delete cb (subscribers st) |},
         []).

(** [s.forEach(f)] over the members in insertion order. *)
Fixpoint forEach (f : Callback → M unit) (s : list Callback) : M unit :=
  match s with
  | [] => mret tt
  | cb :: rest => f cb ;; forEach f rest
  end.

(** Where an [async] method stands after the part run at the call. *)
Inductive Step (A : Type) :=
| Done (a : A)
| Await (r : Request).
Arguments Done {A} a.
Arguments Await {A} r.

(** A parameter left out of a call is [undefined] and takes its default. *)
Definition param (v dflt : JSValue) : JSValue :=
  match v with VUndefined => dflt | _ => v end.

(** ** Reading a run *)

(** The callback invocations of a trace, in order. *)
Definition calls (tr : list Event) : list (Callback * Profile) :=
  omap (λ ev, match ev with Call cb p => Some (cb, p) | _ => None end) tr.

(** The network requests of a trace, in order. *)
Definition requests (tr : list Event) : list Request :=
  omap (λ ev, match ev with Fetch r => Some r | _ => None end) tr.

(** A reply that is a transport error or carries a status outside 2xx. *)
Definition failed (reply : Reply) : bool :=
  match reply with
  | Rejected => true
  | Response status _ => negb (ok status)
  end.

(** The [lastUpdated] stamp of the entry cached under [key], if any. *)
Definition lastUpdated_at (key : jsstring) (st : Store) : option JSValue :=
  cache st !! key ≫= λ p : Profile, p !! js "lastUpdated".

(** [new Error('Failed to fetch user profile. Please try again later.')] *)
Definition fetch_error : JSError :=
  Error_ (js "Failed to fetch user profile. Please try again later.").

(** [new Error('Failed to update user profile. Please try again later.')] *)
Definition update_error : JSError :=
  Error_ (js "Failed to update user profile. Please try again later.").

(** ** The dashboard helpers of [src/dashboard.js] *)

(** *** UserProfileComponent.escapeHtml *)

(** What [div.textContent = v] stores: [null] and [undefined] clear the
    text, any other value is converted to a string. *)
Definition textContent_of (v : JSValue) : jsstring :=
  match v with
  | VUndefined | VNull => []
  | _ => JS.toString v
  end.

(** How the HTML serialisation of a text node writes one code unit. *)
Definition escape_unit (c : N) : jsstring :=
  if (c =? 38)%N then js "&amp;"
  else if (c =? 160)%N then js "&nbsp;"
  else if (c =? 60)%N then js "&lt;"
  else if (c =? 62)%N then js "&gt;"
  else [c].

(** [div.innerHTML] of a [div] whose only child is the text [s] (no
    child at all when [s] is empty). *)
Definition innerHTML_of_text (s : jsstring) : jsstring :=
  concat (List.map escape_unit s).

Definition escapeHtml (text : JSValue) : jsstring :=
  innerHTML_of_text (textContent_of text).

(** The four references the serialisation writes, without their [&]. *)
Definition entity_tails : list jsstring :=
  [js "amp;"; js "nbsp;"; js "lt;"; js "gt;"].

(** *** DashboardUtils.debounce *)

(** The function [debounce(func, wait)] returns, with the timers it has
    set. [timeout] is the variable of the closure; [timers] maps the
    handle of each of its pending timers to the time it is due and to the
    arguments its [later] has captured; [invoked] lists the calls of
    [func] made so far, with the time and the arguments. *)
Record Debounced := {
  timeout : option nat;
  timers : gmap nat (Z * list JSValue);
  invoked : list (Z * list JSValue)
}.

(** [debounce(func, wait)]: nothing pending, [timeout] undefined. *)
Definition debounce : Debounced :=
  {| timeout := None; timers := ∅; invoked := [] |}.

(** [clearTimeout(timeout)]: no effect on a handle that is not pending
    or on [undefined]. *)
Definition clearTimeout (handle : option nat)
    (pending : gmap nat (Z * list JSValue)) : gmap nat (Z * list JSValue) :=
  match handle with
  | Some h => delete h pending
  | None => pending
  end.

(** What happens to the debounced function: it is called at time [now]
    with [args], and [setTimeout] answers [handle]; or the host runs the
    timer [handle] at time [now]. *)
Inductive DebounceInput :=
| Invoke (now : Z) (args : list JSValue) (handle : nat)
| Expire (now : Z) (handle : nat).

(** One step. The host never answers a handle that is pending, never
    runs a timer that is not pending and never runs one before it is due
    ([None]); a negative [wait] counts as zero. Running a timer runs
    [later]: [clearTimeout(timeout)], then [func(...args)]; the timer that
    ran is no longer pending. *)
Definition debounce_step (wait : Z) (i : DebounceInput) (s : Debounced)
  : option Debounced :=
  match i with
  | Invoke now args handle =>
      let pending := clearTimeout (timeout s) (timers s) in
      if decide (is_Some (pending !! handle)) then None
      else Some {| timeout := Some handle;
                   timers := <[handle := ((now + Z.max wait 0)%Z, args)]> pending;
                   invoked := invoked s |}
  | Expire now handle =>
      match timers s !! handle with
      | Some (due, args) =>
          if (due <=? now)%Z then
            Some {| timeout := timeout s;
                    timers := delete handle (clearTimeout (timeout s) (timers s));
                    invoked := invoked s ++ [(now, args)] |}
          else None
      | None => None
      end
  end.

Definition debounce_run (wait : Z) (inputs : list DebounceInput)
  : option Debounced :=
  foldl (λ s i, s ≫= debounce_step wait i) (Some debounce) inputs.

(** The calls among [inputs], each with its time and arguments. *)
Definition invokes (inputs : list DebounceInput) : list (Z * list JSValue) :=
  omap (λ i, match i with
             | Invoke now args _ => Some (now, args)
             | Expire _ _ => None
             end) inputs.

(** What holds of the debounced function after any run: a pending timer
    is the one [timeout] names and carries the latest call; calls of
    [func] and pending timers together do not outnumber the calls. *)
Definition debounce_invariant (wait : Z) (inputs : list DebounceInput)
    (s : Debounced) : Prop :=
  (∀ h due args,
     timers s !! h = Some (due, args) →
     timeout s = Some h
     ∧ ∃ t, last (invokes inputs) = Some (t, args)
            ∧ due = (t + Z.max wait 0)%Z)
  ∧ length (invoked s) + size (timers s) ≤ length (invokes inputs).

(** A code unit that is left as it is by [encodeURIComponent], or [%]. *)
Definition url_safe (c : N) : Prop := JS.unescaped c = true ∨ c = 37%N.

(** ** Sample collaborators and data for the concrete runs *)

(** An upper-casing table that leaves text outside ASCII as it is. *)
Definition plain_upper : jsstring → jsstring := λ s, s.

(** Callbacks that all return. *)
Definition silent : Callback → Profile → option JSError := λ _ _, None.

(** Callbacks of which number 2 throws the string ["boom"]. *)
Definition second_throws : Callback → Profile → option JSError :=
  λ cb _, if decide (cb = 2) then Some (Thrown (VStr (js "boom"))) else None.

(** [{"id": 1, "name": "Jane Doe", "email": "jane@example.com"}] *)
Definition jane : JSValue :=
  VObj (list_to_map
    [ (js "id", VNum 1);
      (js "name", VStr (js "Jane Doe"));
      (js "email", VStr (js "jane@example.com")) ]).

(** The fields of that body. *)
Definition jane_fields : gmap jsstring JSValue :=
  list_to_map
    [ (js "id", VNum 1);
      (js "name", VStr (js "Jane Doe"));
      (js "email", VStr (js "jane@example.com")) ].

(** [{"name": "X"}] *)
Definition renamed : JSValue := VObj {[ js "name" := VStr (js "X") ]}.

(** 2026-11-02T00:00:00.000Z, in milliseconds since the epoch. *)
Definition t0 : Z := 1793577600000.

Definition sample_profile : Profile :=
  list_to_map
    [ (js "id", VNum 1);
      (js "name", VStr (js "Jane Doe"));
      (js "lastUpdated", VStr (js "2026-11-01T09:30:00.000Z")) ].

(** A store with one cached record and three subscribers. *)
Definition sample_store : Store :=
  {| cache := {[ js "user_1" := sample_profile ]}; subscribers := [1; 2; 3] |}.

(** Linear arithmetic with division and remainder by constants. *)
Ltac div_lia := zify; Z.to_euclidean_division_equations; lia.

(** ** The class [UserAPI] *)

Section UserAPI.

(** The host's Unicode upper-casing of text that is not ASCII. *)
Variable unicode_upper : jsstring → jsstring.

(** What a callback does when it is called with a record: return
    ([None]) or throw. A callback does not call back into the store and
    does not write to the record it is handed. *)
Variable callback_body : Callback → Profile → option JSError.

(** [`user_${userId}`] *)
Definition cacheKey (userId : JSValue) : jsstring :=
  js "user_" ++ JS.toString userId.

(** [`${this.baseURL}/users/${userId}`] *)
Definition userURL (userId : JSValue) : jsstring :=
  baseURL ++ js "/users/" ++ JS.toString userId.

(** The value of the local [initials] of [generateAvatarURL]. *)
Definition initials (name : jsstring) : jsstring :=
  JS.substring 0 2
    (JS.join []
       (List.map (λ word, JS.toUpperCase unicode_upper (JS.charAt 0 word))
          (JS.split 32 name))).

Definition avatarTemplate (encodedName : jsstring) : jsstring :=
  js "https://ui-avatars.com/api/?name=" ++ encodedName
    ++ js "&size=80&background=667eea&color=ffffff&bold=true".

(** A [name] that is not a string has no [split] to call. *)
Definition generateAvatarURL (name : JSValue) : JSError + jsstring :=
  match name with
  | VStr name =>
      let initials := initials name in
      match JS.encodeURIComponent name with
      | Some encoded => inr (avatarTemplate encoded)
      | None => inl URIError_
      end
  | _ => inl TypeError_
  end.

(** The object literal [profileData] of [fetchUserProfile]; evaluating
    it throws when [userData] is [null] or its [name] is not encodable. *)
Definition profileData (userData : JSValue) (now : Z) : JSError + Profile :=
  id ← JS.get userData (js "id");
  name ← JS.get userData (js "name");
  email ← JS.get userData (js "email");
  avatar ← generateAvatarURL name;
  username ← JS.get userData (js "username");
  phone ← JS.get userData (js "phone");
  website ← JS.get userData (js "website");
  company ← JS.get userData (js "company");
  mret (list_to_map
    [ (js "id", id);
      (js "name", name);
      (js "email", email);
      (js "avatar", VStr avatar);
      (js "username", username);
      (js "phone", phone);
      (js "website", website);
      (js "company", JS.or_else (JS.get_opt company (js "name")) (VStr []));
      (js "lastUpdated", VStr (JS.toISOString now)) ]).

(** [await fetch(...)], the [ok] test and [await response.json()]. *)
Definition json_of (reply : Reply) : M JSValue :=
  match reply with
  | Rejected => throw FetchRejected
  | Response status body =>
      if negb (ok status) then
        throw (Error_ (js "HTTP error! status: " ++ JS.toString (VNum status)))
      else match body with
           | Some v => mret v
           | None => throw SyntaxError_
           end
  end.

Definition fetch_failed {A} (error : JSError) : M A :=
  console_error "Error fetching user profile:" error ;;
  throw fetch_error.

Definition get_request (userId : JSValue) : Request :=
  {| req_method := GET; req_url := userURL userId;
     req_headers := []; req_body := None |}.

(** [fetchUserProfile], up to its [await fetch]. *)
Definition fetchUserProfile_call (userId : JSValue) : M (Step Profile) :=
  let userId := param userId (VNum 1) in
  try_catch
    (let cacheKey := cacheKey userId in
     cached ← cache_get cacheKey;
     match cached with
     | Some profile => mret (Done profile)
     | None =>
         emit (Fetch (get_request userId)) ;;
         mret (Await (get_request userId))
     end)
    fetch_failed.

(** [fetchUserProfile], from the reply on; [now] is what the clock reads. *)
Definition fetchUserProfile_resume (userId : JSValue) (reply : Reply) (now : Z)
  : M Profile :=
  let userId := param userId (VNum 1) in
  try_catch
    (let cacheKey := cacheKey userId in
     userData ← json_of reply;
     profileData ← lift (profileData userData now);
     cache_set cacheKey profileData ;;
     mret profileData)
    fetch_failed.

(** A call of [fetchUserProfile] that nothing else interleaves with. *)
Definition fetchUserProfile (userId : JSValue) (reply : Reply) (now : Z)
  : M Profile :=
  step ← fetchUserProfile_call userId;
  match step with
  | Done profile => mret profile
  | Await _ => fetchUserProfile_resume userId reply now
  end.

Definition invoke (callback : Callback) (profile : Profile) : M unit :=
  emit (Call callback profile) ;;
  match callback_body callback profile with
  | None => mret tt
  | Some e => throw e
  end.

Definition notifySubscribers (profileData : Profile) : M unit :=
  λ st,
    forEach
      (λ callback,
         try_catch (invoke callback profileData)
           (λ error, console_error "Error in subscriber callback:" error))
      (subscribers st) st.

Definition update_failed {A} (error : JSError) : M A :=
  console_error "Error updating user profile:" error ;;
  throw update_error.

Definition put_request (userId profileData : JSValue) : Request :=
  {| req_method := PUT; req_url := userURL userId;
     req_headers := [(js "Content-Type", js "application/json")];
     req_body := Some profileData |}.

(** [{...cachedData, ...updatedData, lastUpdated: ...}]: a later
    property overrides an earlier one of the same name. *)
Definition mergedData (cachedData : Profile) (updatedData : JSValue) (now : Z)
  : Profile :=
  <[js "lastUpdated" := VStr (JS.toISOString now)]>
    (JS.spread updatedData ∪ cachedData).

(** [updateUserProfile], up to its [await fetch]. *)
Definition updateUserProfile_call (userId profileData : JSValue)
  : M (Step Profile) :=
  try_catch
    (emit (Fetch (put_request userId profileData)) ;;
     mret (Await (put_request userId profileData)))
    update_failed.

(** [updateUserProfile], from the reply on. *)
Definition updateUserProfile_resume (userId : JSValue) (reply : Reply) (now : Z)
  : M Profile :=
  try_catch
    (updatedData ← json_of reply;
     let cacheKey := cacheKey userId in
     cached ← cache_get cacheKey;
     let cachedData := default ∅ cached in
     let mergedData := mergedData cachedData updatedData now in
     cache_set cacheKey mergedData ;;
     notifySubscribers mergedData ;;
     mret mergedData)
    update_failed.

(** A call of [updateUserProfile] that nothing else interleaves with. *)
Definition updateUserProfile (userId profileData : JSValue) (reply : Reply)
    (now : Z) : M Profile :=
  step ← updateUserProfile_call userId profileData;
  match step with
  | Done profile => mret profile
  | Await _ => updateUserProfile_resume userId reply now
  end.

(** The function [subscribe] returns: it remembers its callback. *)
Record Disposer := { disposer_callback : Callback }.

Definition subscribe (callback : Callback) : M Disposer :=
  subscribers_add callback ;;
  mret {| disposer_callback := callback |}.

(** A call of the function [subscribe] returned. *)
Definition unsubscribe (d : Disposer) : M unit :=
  subscribers_delete (disposer_callback d).

Definition clearCache (userId : JSValue) : M unit :=
  let userId := param userId VNull in
  if JS.truthy userId then cache_delete (cacheKey userId)
  else cache_clear.

(** One firing of the timer [simulateRealTimeUpdates] sets; the clock is
    read once for [lastSeen] and once for [lastUpdated]. A cached record
    is an object, hence truthy. *)
Definition simulateRealTimeUpdates_tick (nowSeen nowUpdated : Z) : M unit :=
  try_catch
    (currentProfile ← cache_get (js "user_1");
     match currentProfile with
     | Some currentProfile =>
         let updatedProfile :=
           <[js "lastUpdated" := VStr (JS.toISOString nowUpdated)]>
             (<[js "lastSeen" := VStr (JS.toISOString nowSeen)]> currentProfile) in
         cache_set (js "user_1") updatedProfile ;;
         notifySubscribers updatedProfile
     | None => mret tt
     end)
    (λ error, console_error "Error in simulated real-time update:" error).

(** The timer set by [simulateRealTimeUpdates] firing once for each
    pair of clock readings, in order. *)
Fixpoint simulateRealTimeUpdates_ticks (readings : list (Z * Z)) : M unit :=
  match readings with
  | [] => mret tt
  | (nowSeen, nowUpdated) :: rest =>
      simulateRealTimeUpdates_tick nowSeen nowUpdated ;;
      simulateRealTimeUpdates_ticks rest
  end.

(** A call made on the store by its users or by the timer. *)
Inductive Operation :=
| DoFetch (userId : JSValue) (reply : Reply) (now : Z)
| DoUpdate (userId profileData : JSValue) (reply : Reply) (now : Z)
| DoClear (userId : JSValue)
| DoTick (nowSeen nowUpdated : Z)
| DoSubscribe (callback : Callback)
| DoDispose (d : Disposer).

(** The store after [op], whether the call returns or throws. *)
Definition perform (op : Operation) (st : Store) : Store :=
  match op with
  | DoFetch userId reply now => (fetchUserProfile userId reply now st).1.2
  | DoUpdate userId profileData reply now =>
      (updateUserProfile userId profileData reply now st).1.2
  | DoClear userId => (clearCache userId st).1.2
  | DoTick nowSeen nowUpdated =>
      (simulateRealTimeUpdates_tick nowSeen nowUpdated st).1.2
  | DoSubscribe callback => (subscribe callback st).1.2
  | DoDispose d => (unsubscribe d st).1.2
  end.

Definition perform_all (ops : list Operation) (st : Store) : Store :=
  foldl (λ st op, perform op st) st ops.

(** A reply a fetch can build a record from: 2xx, and a JSON body that
    is an object with a well-formed string [name]. *)
Definition fetchable (reply : Reply) : bool :=
  match reply with
  | Response status (Some userData) =>
      ok status
      && match JS.get userData (js "name") with
         | inr (VStr name) => JS.isWellFormed name
         | _ => false
         end
  | _ => false
  end.

(** A reply an update can merge: 2xx, and a body that is JSON. *)
Definition mergeable (reply : Reply) : bool :=
  match reply with
  | Response status (Some _) => ok status
  | _ => false
  end.

(** The life of one cache key: whether [key] has an entry after [op],
    given whether it had one before. *)
Definition present_after (key : jsstring) (op : Operation) (present : bool)
  : bool :=
  match op with
  | DoFetch userId reply _ =>
      if decide (cacheKey (param userId (VNum 1)) = key)
      then present || fetchable reply else present
  | DoUpdate userId _ reply _ =>
      if decide (cacheKey userId = key)
      then present || mergeable reply else present
  | DoClear userId =>
      if JS.truthy (param userId VNull)
      then (if decide (cacheKey (param userId VNull) = key)
            then false else present)
      else false
  | DoTick _ _ | DoSubscribe _ | DoDispose _ => present
  end.

(** What one delivery of [profile] to [callback] leaves in the trace. *)
Definition delivery (profile : Profile) (callback : Callback) : list Event :=
  Call callback profile ::
  match callback_body callback profile with
  | Some e => [ConsoleError (js "Error in subscriber callback:") e]
  | None => []
  end.

(** ** Broadcasting *)

Ltac run :=
  unfold mbind, M_bind, mret, M_ret, try_catch, throw, lift, emit,
    console_error, cache_get, cache_set, cache_delete, cache_clear,
    subscribers_add, subscribers_delete; cbn [fst snd].

(** Reads a field of an object literal. *)
Ltac read_field :=
  unfold mret, throwing_ret, list_to_map; cbn [foldr curry fst snd uncurry];
  repeat first
    [ apply lookup_insert_eq
    | rewrite lookup_insert_ne
        by (let H := fresh in intros H; vm_compute in H; discriminate H) ].

Lemma calls_app (t1 t2 : list Event) : calls (t1 ++ t2) = calls t1 ++ calls t2.
Proof. apply omap_app. Qed.

Lemma requests_app (t1 t2 : list Event) :
  requests (t1 ++ t2) = requests t1 ++ requests t2.
Proof. apply omap_app. Qed.

Lemma calls_delivery (p : Profile) (cb : Callback) :
  calls (delivery p cb) = [(cb, p)].
Proof. unfold delivery. by destruct (callback_body cb p). Qed.

Lemma requests_delivery (p : Profile) (cb : Callback) :
  requests (delivery p cb) = [].
Proof. unfold delivery. by destruct (callback_body cb p). Qed.

Lemma calls_deliveries (p : Profile) (l : list Callback) :
  calls (l ≫= delivery p) = (λ cb, (cb, p)) <$> l.
Proof.
  induction l as [|cb l IH]; [done|].
  change ((cb :: l) ≫= delivery p) with (delivery p cb ++ (l ≫= delivery p)).
  by rewrite calls_app, calls_delivery, IH.
Qed.

Lemma requests_deliveries (p : Profile) (l : list Callback) :
  requests (l ≫= delivery p) = [].
Proof.
  induction l as [|cb l IH]; [done|].
  change ((cb :: l) ≫= delivery p) with (delivery p cb ++ (l ≫= delivery p)).
  by rewrite requests_app, requests_delivery, IH.
Qed.

Lemma deliver_one (p : Profile) (cb : Callback) (st : Store) :
  try_catch (invoke cb p)
    (λ error, console_error "Error in subscriber callback:" error) st
  = (Returns tt, st, delivery p cb).
Proof.
  unfold invoke, delivery. run.
  by destruct (callback_body cb p).
Qed.

(** A broadcast returns, leaves the store alone, and delivers to every
    member in order, whatever the callbacks do. *)
Lemma notifySubscribers_run (p : Profile) (st : Store) :
  notifySubscribers p st = (Returns tt, st, subscribers st ≫= delivery p).
Proof.
  unfold notifySubscribers.
  generalize (subscribers st) as l.
  induction l as [|cb l IH]; [done|].
  cbn [forEach]. unfold mbind at 1, M_bind at 1.
  by rewrite deliver_one, IH.
Qed.

(** ** Replies *)

Lemma json_of_failed (reply : Reply) :
  failed reply = true → ∃ e, ∀ st, json_of reply st = (Throws e, st, []).
Proof.
  destruct reply as [|status body]; cbn; intros H.
  - by exists FetchRejected.
  - rewrite H. by eexists.
Qed.

Lemma json_of_ok (status : Z) (v : JSValue) (st : Store) :
  ok status = true → json_of (Response status (Some v)) st = (Returns v, st, []).
Proof. intros H. cbn. by rewrite H. Qed.

(** ** updateUserProfile *)

Lemma updateUserProfile_resume_failed userId reply now st :
  failed reply = true →
  ∃ e, updateUserProfile_resume userId reply now st
       = (Throws update_error, st,
          [ConsoleError (js "Error updating user profile:") e]).
Proof.
  intros [e He]%json_of_failed. exists e.
  unfold updateUserProfile_resume, update_failed. run. by rewrite He.
Qed.

Lemma updateUserProfile_resume_ok userId status updatedData now st :
  ok status = true →
  let merged :=
    mergedData (default ∅ (cache st !! cacheKey userId)) updatedData now in
  updateUserProfile_resume userId (Response status (Some updatedData)) now st
  = (Returns merged, store_with (cacheKey userId) merged st,
     subscribers st ≫= delivery merged).
Proof.
  intros H merged.
  unfold updateUserProfile_resume. run.
  rewrite json_of_ok by done.
  rewrite notifySubscribers_run. cbn.
  by rewrite app_nil_r.
Qed.

Lemma updateUserProfile_unfold userId partialData reply now st :
  updateUserProfile userId partialData reply now st
  = let '(r, st', tr) := updateUserProfile_resume userId reply now st in
    (r, st', Fetch (put_request userId partialData) :: tr).
Proof. by unfold updateUserProfile, updateUserProfile_call; run. Qed.

Lemma mergedData_lookup cached updatedData now k :
  mergedData cached updatedData now !! k
  = if decide (k = js "lastUpdated") then Some (VStr (JS.toISOString now))
    else match JS.spread updatedData !! k with
         | Some v => Some v
         | None => cached !! k
         end.
Proof.
  unfold mergedData. case_decide as Hk.
  - subst k. apply lookup_insert_eq.
  - rewrite lookup_insert_ne by done.
    rewrite lookup_union. by destruct (JS.spread updatedData !! k), (cached !! k).
Qed.

(** C3. When the update request fails (transport error or a status
    outside 2xx), [updateUserProfile] throws one fixed, user-safe error
    whatever the failure was; the store, hence the cache entry of the key,
    is exactly as before; and the trace holds the request and one console
    line, so no subscriber was invoked. The same holds for the part run
    at the reply, on whatever store the reply finds. *)
Theorem updateUserProfile_failure_keeps_cache
    (userId partialData : JSValue) (reply : Reply) (now : Z) (st : Store) :
  failed reply = true →
  ∃ detail tr,
    updateUserProfile userId partialData reply now st
      = (Throws update_error, st, tr)
    ∧ tr = [Fetch (put_request userId partialData);
            ConsoleError (js "Error updating user profile:") detail]
    ∧ calls tr = []
    ∧ ∀ st', updateUserProfile_resume userId reply now st'
             = (Throws update_error, st',
                [ConsoleError (js "Error updating user profile:") detail]).
Proof.
  intros Hfail.
  destruct (json_of_failed reply Hfail) as [e He].
  assert (∀ st', updateUserProfile_resume userId reply now st'
                 = (Throws update_error, st',
                    [ConsoleError (js "Error updating user profile:") e])) as Hres.
  { intros st'. unfold updateUserProfile_resume, update_failed. run.
    by rewrite He. }
  exists e. eexists. rewrite updateUserProfile_unfold, Hres. done.
Qed.

(** C4. On a successful reply, [updateUserProfile] stores under the key,
    and returns, the merge of the response over the record cached for
    that key (an empty record when there is none): [lastUpdated] is the
    fresh stamp, any other field is the response's when the response has
    it and the cached one otherwise, so a field absent from both is
    absent. Before it returns, every registered subscriber has been called
    once, in registration order, with that merged record. *)
Theorem updateUserProfile_merges_and_broadcasts
    (userId partialData : JSValue) (status : Z) (updatedData : JSValue)
    (now : Z) (st : Store) :
  ok status = true →
  let cached := default ∅ (cache st !! cacheKey userId) in
  let merged := mergedData cached updatedData now in
  ∃ tr,
    updateUserProfile userId partialData
        (Response status (Some updatedData)) now st
      = (Returns merged, store_with (cacheKey userId) merged st,
         Fetch (put_request userId partialData) :: tr)
    ∧ cache (store_with (cacheKey userId) merged st) !! cacheKey userId
      = Some merged
    ∧ calls tr = (λ cb, (cb, merged)) <$> subscribers st
    ∧ requests tr = []
    ∧ merged !! js "lastUpdated" = Some (VStr (JS.toISOString now))
    ∧ ∀ k, k ≠ js "lastUpdated" →
        merged !! k = match JS.spread updatedData !! k with
                      | Some v => Some v
                      | None => cached !! k
                      end.
Proof.
  intros Hok cached merged.
  exists (subscribers st ≫= delivery merged).
  rewrite updateUserProfile_unfold, updateUserProfile_resume_ok by done.
  split_and!.
  - done.
  - apply lookup_insert_eq.
  - apply calls_deliveries.
  - apply requests_deliveries.
  - subst merged. rewrite mergedData_lookup. by rewrite decide_True.
  - intros k Hk. subst merged. rewrite mergedData_lookup.
    by rewrite decide_False.
Qed.

(** C5. If a registered subscriber throws during the broadcast of an
    update, the subscribers registered before and after it are all
    called, the update still returns the merged record, and the thrown
    value shows up only as a console line right after the call; a
    broadcast by itself always returns. *)
Theorem throwing_subscriber_is_isolated
    (userId partialData : JSValue) (status : Z) (updatedData : JSValue)
    (now : Z) (st : Store) (before after : list Callback) (cb : Callback)
    (e : JSError) :
  ok status = true →
  subscribers st = before ++ cb :: after →
  let merged :=
    mergedData (default ∅ (cache st !! cacheKey userId)) updatedData now in
  callback_body cb merged = Some e →
  ∃ tr1 tr2,
    updateUserProfile userId partialData
        (Response status (Some updatedData)) now st
      = (Returns merged, store_with (cacheKey userId) merged st,
         Fetch (put_request userId partialData)
           :: tr1 ++ Call cb merged
           :: ConsoleError (js "Error in subscriber callback:") e :: tr2)
    ∧ calls tr1 = (λ c, (c, merged)) <$> before
    ∧ calls tr2 = (λ c, (c, merged)) <$> after
    ∧ ∀ p st', ∃ tr, notifySubscribers p st' = (Returns tt, st', tr).
Proof.
  intros Hok Hsubs merged Hthrow.
  exists (before ≫= delivery merged), (after ≫= delivery merged).
  rewrite updateUserProfile_unfold, updateUserProfile_resume_ok by done.
  fold merged. rewrite Hsubs, bind_app.
  change ((cb :: after) ≫= delivery merged)
    with (delivery merged cb ++ (after ≫= delivery merged)).
  unfold delivery at 2. rewrite Hthrow.
  split_and!; [done | apply calls_deliveries | apply calls_deliveries |].
  intros p st'. eexists. apply notifySubscribers_run.
Qed.

(** ** The periodic refresh *)

(** The record a tick derives from the cached one. *)
Lemma simulateRealTimeUpdates_tick_present nowSeen nowUpdated st prior :
  cache st !! js "user_1" = Some prior →
  let updated :=
    <[js "lastUpdated" := VStr (JS.toISOString nowUpdated)]>
      (<[js "lastSeen" := VStr (JS.toISOString nowSeen)]> prior) in
  simulateRealTimeUpdates_tick nowSeen nowUpdated st
  = (Returns tt, store_with (js "user_1") updated st,
     subscribers st ≫= delivery updated).
Proof.
  intros Hsome updated.
  unfold simulateRealTimeUpdates_tick. run. rewrite Hsome.
  fold updated. by rewrite (notifySubscribers_run updated).
Qed.

(** C7. One tick of the simulated refresh does nothing at all when no
    entry is cached for the demo identifier: same store, empty trace. When
    an entry is cached, the tick leaves under the demo user's key, and
    hands to every subscriber in order, a record that has the two fresh
    stamps [lastSeen] and [lastUpdated] and agrees with the prior record
    on every other field; every other cache entry and the subscribers
    are as they were. *)
Theorem refresh_tick_frame (nowSeen nowUpdated : Z) (st : Store) :
  (cache st !! js "user_1" = None →
   simulateRealTimeUpdates_tick nowSeen nowUpdated st = (Returns tt, st, []))
  ∧ (∀ prior, cache st !! js "user_1" = Some prior →
     ∃ updated st' tr,
       simulateRealTimeUpdates_tick nowSeen nowUpdated st
         = (Returns tt, st', tr)
       ∧ st' = store_with (js "user_1") updated st
       ∧ cache st' !! js "user_1" = Some updated
       ∧ (∀ key, key ≠ js "user_1" → cache st' !! key = cache st !! key)
       ∧ subscribers st' = subscribers st
       ∧ calls tr = (λ cb, (cb, updated)) <$> subscribers st
       ∧ requests tr = []
       ∧ updated !! js "lastSeen" = Some (VStr (JS.toISOString nowSeen))
       ∧ updated !! js "lastUpdated" = Some (VStr (JS.toISOString nowUpdated))
       ∧ ∀ k, k ≠ js "lastSeen" → k ≠ js "lastUpdated" →
           updated !! k = prior !! k).
Proof.
  split.
  - intros Hnone. unfold simulateRealTimeUpdates_tick. run. by rewrite Hnone.
  - intros prior Hsome.
    pose proof (simulateRealTimeUpdates_tick_present nowSeen nowUpdated st
                  prior Hsome) as Hrun.
    cbv zeta in Hrun. eexists _, _, _. split; [exact Hrun|].
    split_and!.
    + reflexivity.
    + unfold store_with. cbn [cache]. apply lookup_insert_eq.
    + intros key Hkey. unfold store_with. cbn [cache].
      by apply lookup_insert_ne.
    + reflexivity.
    + apply calls_deliveries.
    + apply requests_deliveries.
    + rewrite lookup_insert_ne by (intros H; vm_compute in H; discriminate H).
      apply lookup_insert_eq.
    + apply lookup_insert_eq.
    + intros k H1 H2. by rewrite !lookup_insert_ne.
Qed.

(** ** Invalidation *)

(** C10. [clearCache] tests its argument for truthiness: on a falsy
    identifier ([0], [null], the empty string, or none at all) it empties
    the whole cache; only on a truthy identifier does it remove the one
    entry of that identifier's key and keep every other entry. Either way
    it returns, leaves the subscribers alone and does nothing outside. So
    [clearCache(0)] wipes every user's record. *)
Theorem clearCache_falsy_clears_everything (userId : JSValue) (st : Store) :
  (JS.truthy userId = false →
   clearCache userId st
   = (Returns tt, {| cache := ∅; subscribers := subscribers st |}, []))
  ∧ (JS.truthy userId = true →
     ∃ st', clearCache userId st = (Returns tt, st', [])
       ∧ subscribers st' = subscribers st
       ∧ cache st' !! cacheKey userId = None
       ∧ ∀ k, k ≠ cacheKey userId → cache st' !! k = cache st !! k)
  ∧ JS.truthy (VNum 0) = false
  ∧ JS.truthy VNull = false
  ∧ JS.truthy (VStr []) = false
  ∧ clearCache (VNum 0) st
    = (Returns tt, {| cache := ∅; subscribers := subscribers st |}, []).
Proof.
  split_and!; try done.
  - intros Hf. unfold clearCache.
    replace (JS.truthy (param userId VNull)) with false by by destruct userId.
    done.
  - intros Ht. unfold clearCache.
    replace (param userId VNull) with userId by by destruct userId.
    rewrite Ht. eexists. split_and!; [done | done | |].
    + apply lookup_delete_eq.
    + intros k Hk. cbn. by rewrite lookup_delete_ne.
Qed.

(** ** Subscriptions *)

Lemma set_add_NoDup (cb : Callback) (l : list Callback) :
  NoDup l → NoDup (set_add cb l).
Proof.
  intros Hl. unfold set_add. case_decide; [done|].
  apply NoDup_app. split_and!; [done | | apply NoDup_singleton].
  intros x Hx ->%list_elem_of_singleton. done.
Qed.

Lemma set_add_elem (cb : Callback) (l : list Callback) : cb ∈ set_add cb l.
Proof. unfold set_add. case_decide; [done|]. set_solver. Qed.

Lemma set_add_again (cb : Callback) (l : list Callback) :
  set_add cb (set_add cb l) = set_add cb l.
Proof.
  unfold set_add at 1. by rewrite decide_True by apply set_add_elem.
Qed.

Lemma set_delete_absent (cb : Callback) (l : list Callback) :
  cb ∉ l → set_delete cb l = l.
Proof.
  intros H. unfold set_delete.
  induction l as [|c l IH]; [done|].
  rewrite filter_cons_True.
  - f_equal. apply IH. set_solver.
  - intros ->. set_solver.
Qed.

Lemma set_delete_elem (cb c : Callback) (l : list Callback) :
  c ∈ set_delete cb l ↔ c ∈ l ∧ c ≠ cb.
Proof. unfold set_delete. rewrite list_elem_of_filter. tauto. Qed.

(** C8, as the code has it. The subscribers are a [Set], so registration
    is by identity: subscribing a callback that is registered already
    changes nothing, the callback stays registered once and a broadcast
    calls it once; both calls of [subscribe] return a disposer for that
    one registration, and the first disposer called removes it (other
    subscribers and the cache are kept). A disposer called again, or
    called when its callback is gone, returns and changes nothing. *)
Theorem subscribe_is_by_identity (cb : Callback) (st : Store) :
  NoDup (subscribers st) →
  ∃ d st1,
    subscribe cb st = (Returns d, st1, [])
    ∧ subscribe cb st1 = (Returns d, st1, [])
    ∧ cb ∈ subscribers st1 ∧ NoDup (subscribers st1)
    ∧ (∀ p, ∃ tr, notifySubscribers p st1 = (Returns tt, st1, tr)
         ∧ calls tr = (λ c, (c, p)) <$> subscribers st1)
    ∧ ∃ st2,
        unsubscribe d st1 = (Returns tt, st2, [])
        ∧ (cb ∉ subscribers st2)
        ∧ (∀ c, c ≠ cb → (c ∈ subscribers st2 ↔ c ∈ subscribers st))
        ∧ cache st2 = cache st
        ∧ unsubscribe d st2 = (Returns tt, st2, [])
        ∧ ∀ st', ∃ st'',
            unsubscribe d st' = (Returns tt, st'', [])
            ∧ unsubscribe d st'' = (Returns tt, st'', []).
Proof.
  intros Hnd.
  exists {| disposer_callback := cb |},
    {| cache := cache st; subscribers := set_add cb (subscribers st) |}.
  split_and!.
  - done.
  - unfold subscribe. run. cbn. by rewrite set_add_again.
  - apply set_add_elem.
  - by apply set_add_NoDup.
  - intros p. eexists. split; [apply notifySubscribers_run|].
    apply calls_deliveries.
  - eexists. split_and!.
    + done.
    + cbn [subscribers]. rewrite set_delete_elem. tauto.
    + intros c Hc. cbn [subscribers]. rewrite set_delete_elem. unfold set_add.
      case_decide; [tauto|].
      rewrite elem_of_app, list_elem_of_singleton. tauto.
    + done.
    + unfold unsubscribe. run. cbn [subscribers cache disposer_callback].
      rewrite (set_delete_absent cb (set_delete cb _)); [done|].
      rewrite set_delete_elem. tauto.
    + intros st'. eexists. split; [done|].
      unfold unsubscribe. run. cbn [subscribers cache disposer_callback].
      rewrite (set_delete_absent cb (set_delete cb _)); [done|].
      rewrite set_delete_elem. tauto.
Qed.

(** ** fetchUserProfile *)

Lemma fetchUserProfile_hit userId reply now st p :
  cache st !! cacheKey (param userId (VNum 1)) = Some p →
  fetchUserProfile userId reply now st = (Returns p, st, []).
Proof.
  intros H. unfold fetchUserProfile, fetchUserProfile_call. run.
  by rewrite H.
Qed.

Lemma fetchUserProfile_miss userId reply now st :
  cache st !! cacheKey (param userId (VNum 1)) = None →
  fetchUserProfile userId reply now st
  = let '(r, st', tr) := fetchUserProfile_resume userId reply now st in
    (r, st', Fetch (get_request (param userId (VNum 1))) :: tr).
Proof.
  intros H. unfold fetchUserProfile, fetchUserProfile_call. run.
  by rewrite H.
Qed.

(** The part run at the reply either stores and returns the record built
    from a 2xx JSON body, or logs and throws the fixed error. *)
Lemma fetchUserProfile_resume_cases userId reply now st :
  (∃ status userData p,
      reply = Response status (Some userData) ∧ ok status = true
      ∧ profileData userData now = inr p
      ∧ fetchUserProfile_resume userId reply now st
        = (Returns p, store_with (cacheKey (param userId (VNum 1))) p st, []))
  ∨ (∃ e, fetchUserProfile_resume userId reply now st
          = (Throws fetch_error, st,
             [ConsoleError (js "Error fetching user profile:") e])).
Proof.
  destruct (failed reply) eqn:Hfail.
  { right. destruct (json_of_failed reply Hfail) as [e He]. exists e.
    unfold fetchUserProfile_resume, fetch_failed. run. by rewrite He. }
  destruct reply as [|status body]; [done|].
  apply negb_false_iff in Hfail.
  unfold fetchUserProfile_resume, fetch_failed.
  destruct body as [userData|].
  - destruct (profileData userData now) as [e|p] eqn:Hp.
    + right. exists e. run. rewrite json_of_ok by done. by rewrite Hp.
    + left. exists status, userData, p. split_and!; try done.
      run. rewrite json_of_ok by done. by rewrite Hp.
  - right. exists SyntaxError_. run. unfold json_of. by rewrite Hfail.
Qed.

Lemma fetchUserProfile_resume_failed userId reply now st :
  failed reply = true →
  ∃ e, fetchUserProfile_resume userId reply now st
       = (Throws fetch_error, st,
          [ConsoleError (js "Error fetching user profile:") e]).
Proof.
  intros [e He]%json_of_failed. exists e.
  unfold fetchUserProfile_resume, fetch_failed. run. by rewrite He.
Qed.

(** *** A body the record can be built from *)

Lemma unescaped_not_surrogate (c : N) :
  JS.unescaped c = true → JS.is_lead c = false ∧ JS.is_trail c = false.
Proof.
  intros H. assert (c < 128)%N as Hc.
  { unfold JS.unescaped, JS.in_range in H.
    rewrite !orb_true_iff, !andb_true_iff, !N.leb_le in H.
    destruct H as [[[H|H]|H]|H]; [lia..|].
    apply bool_decide_eq_true in H. vm_compute js in H.
    repeat (apply elem_of_cons in H as [->|H]; [lia|]).
    by apply elem_of_nil in H. }
  unfold JS.is_lead, JS.is_trail, JS.in_range.
  rewrite !andb_false_iff, !N.leb_gt. lia.
Qed.

Lemma encodeURIComponent_total (s : jsstring) :
  JS.isWellFormed s = true → is_Some (JS.encodeURIComponent s).
Proof.
  remember (length s) as n eqn:Hn.
  revert s Hn. induction n as [n IH] using lt_wf_ind. intros s -> Hwf.
  destruct s as [|c r]; [by eexists|].
  cbn [JS.encodeURIComponent JS.isWellFormed] in *.
  destruct (JS.unescaped c) eqn:Hu.
  - apply unescaped_not_surrogate in Hu as [Hl Ht]. rewrite Hl, Ht in Hwf.
    destruct (IH (length r)) with (s := r) as [e ->]; cbn; [lia|done|done|].
    by eexists.
  - destruct (JS.is_trail c); [done|].
    destruct (JS.is_lead c).
    + destruct r as [|d r']; [done|].
      destruct (JS.is_trail d); [|done]. cbn in Hwf.
      destruct (IH (length r')) with (s := r') as [e ->]; cbn; [lia|done|done|].
      by eexists.
    + destruct (IH (length r)) with (s := r) as [e ->]; cbn; [lia|done|done|].
      by eexists.
Qed.

Lemma profileData_of_named userData name now :
  JS.get userData (js "name") = inr (VStr name) →
  JS.isWellFormed name = true →
  ∃ p, profileData userData now = inr p
    ∧ p !! js "name" = Some (VStr name)
    ∧ p !! js "lastUpdated" = Some (VStr (JS.toISOString now)).
Proof.
  intros Hname Hwf.
  destruct (encodeURIComponent_total name Hwf) as [e He].
  destruct userData as [| | | | |l|o]; try discriminate Hname.
  injection Hname as Hname.
  unfold profileData, JS.get, generateAvatarURL, mbind, throwing_bind.
  rewrite Hname, He.
  eexists. split; [reflexivity|]. split; read_field.
Qed.

Lemma profileData_lastUpdated userData now p :
  profileData userData now = inr p →
  p !! js "lastUpdated" = Some (VStr (JS.toISOString now)).
Proof.
  unfold profileData, mbind, throwing_bind. intros H.
  repeat case_match; try discriminate H.
  apply (inj inr) in H as <-. read_field.
Qed.

Lemma fetchUserProfile_miss_ok userId status userData name now st :
  cache st !! cacheKey (param userId (VNum 1)) = None →
  ok status = true →
  JS.get userData (js "name") = inr (VStr name) →
  JS.isWellFormed name = true →
  ∃ p,
    fetchUserProfile userId (Response status (Some userData)) now st
    = (Returns p, store_with (cacheKey (param userId (VNum 1))) p st,
       [Fetch (get_request (param userId (VNum 1)))])
    ∧ p !! js "name" = Some (VStr name)
    ∧ p !! js "lastUpdated" = Some (VStr (JS.toISOString now)).
Proof.
  intros Hmiss Hok Hname Hwf.
  destruct (profileData_of_named userData name now Hname Hwf)
    as (p & Hp & Hpn & Hpu).
  exists p. rewrite fetchUserProfile_miss by done.
  unfold fetchUserProfile_resume. run.
  rewrite json_of_ok by done. by rewrite Hp.
Qed.

(** C2. When the key derived from [userId] has a cached record,
    [fetchUserProfile] returns that record with an empty trace (no
    request) and an unchanged store; the method has no [forceRefresh]
    parameter, so this holds for every call. Hence, starting without an
    entry, a call that succeeds sends exactly one GET and stores the
    record it returns, and a second call returns that same record and
    sends nothing: one request for the two calls. *)
Theorem fetchUserProfile_twice_one_request (userId : JSValue) (st : Store) :
  let uid := param userId (VNum 1) in
  (∀ p reply now,
     cache st !! cacheKey uid = Some p →
     fetchUserProfile userId reply now st = (Returns p, st, []))
  ∧ (∀ reply1 now1 p st1 tr1,
       cache st !! cacheKey uid = None →
       fetchUserProfile userId reply1 now1 st = (Returns p, st1, tr1) →
       requests tr1 = [get_request uid]
       ∧ cache st1 !! cacheKey uid = Some p
       ∧ ∀ reply2 now2, ∃ tr2,
           fetchUserProfile userId reply2 now2 st1 = (Returns p, st1, tr2)
           ∧ tr2 = []
           ∧ requests (tr1 ++ tr2) = [get_request uid]).
Proof.
  intros uid. split.
  - intros p reply now H. by apply fetchUserProfile_hit.
  - intros reply1 now1 p st1 tr1 Hmiss Hrun.
    rewrite fetchUserProfile_miss in Hrun by done.
    destruct (fetchUserProfile_resume_cases userId reply1 now1 st)
      as [(status & userData & p' & _ & _ & _ & Hres)|[e Hres]];
      rewrite Hres in Hrun; [|discriminate Hrun].
    injection Hrun as <- <- <-.
    assert (cache (store_with (cacheKey uid) p' st) !! cacheKey uid = Some p')
      as Hstored by apply lookup_insert_eq.
    split_and!; [done | done |].
    intros reply2 now2. exists []. split_and!; [|done..].
    by apply fetchUserProfile_hit.
Qed.

(** C6. Without a cached record for the key, a fetch whose request
    fails (transport error or a status outside 2xx) throws one fixed,
    user-safe error whatever the failure was, and leaves the store as it
    found it, so the key is still without an entry; the failure itself
    only reaches the console. A later fetch of the same identifier that
    gets a 2xx body with a well-formed string [name] sends its request,
    returns the record built from the body and caches it under the key. *)
Theorem fetchUserProfile_failure_leaves_absent
    (userId : JSValue) (reply : Reply) (now : Z) (st : Store) :
  let uid := param userId (VNum 1) in
  cache st !! cacheKey uid = None →
  failed reply = true →
  ∃ detail st',
    fetchUserProfile userId reply now st
      = (Throws fetch_error, st',
         [Fetch (get_request uid);
          ConsoleError (js "Error fetching user profile:") detail])
    ∧ st' = st
    ∧ cache st' !! cacheKey uid = None
    ∧ ∀ status userData name now',
        ok status = true →
        JS.get userData (js "name") = inr (VStr name) →
        JS.isWellFormed name = true →
        ∃ p,
          fetchUserProfile userId (Response status (Some userData)) now' st'
            = (Returns p, store_with (cacheKey uid) p st',
               [Fetch (get_request uid)])
          ∧ cache (store_with (cacheKey uid) p st') !! cacheKey uid = Some p
          ∧ p !! js "name" = Some (VStr name).
Proof.
  intros uid Hmiss Hfail.
  destruct (fetchUserProfile_resume_failed userId reply now st Hfail)
    as [e He].
  exists e, st. rewrite fetchUserProfile_miss, He by done.
  split_and!; [done..|].
  intros status userData name now' Hok Hname Hwf.
  destruct (fetchUserProfile_miss_ok userId status userData name now' st
              Hmiss Hok Hname Hwf) as (p & Hp & Hpn & _).
  exists p. split_and!; [done | apply lookup_insert_eq | done].
Qed.

Lemma lastUpdated_at_store_with (k : jsstring) (p : Profile) (st : Store) :
  lastUpdated_at k (store_with k p st) = p !! js "lastUpdated".
Proof.
  unfold lastUpdated_at, store_with. cbn [cache].
  by rewrite lookup_insert_eq.
Qed.

(** C9, as the code has it. Every write to a cache entry stamps
    [lastUpdated] with [toISOString] of the clock reading taken at that
    write: a fetch that stores, an update that merges, a refresh tick.
    Nothing compares the stamp with the previous one, so two successive
    writes carry the stamps of their two readings, and the same stamp when
    the clock read the same millisecond. *)
Theorem lastUpdated_is_the_clock_reading (st : Store) :
  (∀ userId reply now p st1 tr,
     cache st !! cacheKey (param userId (VNum 1)) = None →
     fetchUserProfile userId reply now st = (Returns p, st1, tr) →
     lastUpdated_at (cacheKey (param userId (VNum 1))) st1
     = Some (VStr (JS.toISOString now)))
  ∧ (∀ userId partialData reply now p st1 tr,
       updateUserProfile userId partialData reply now st
         = (Returns p, st1, tr) →
       lastUpdated_at (cacheKey userId) st1 = Some (VStr (JS.toISOString now)))
  ∧ (∀ nowSeen nowUpdated r st1 tr,
       is_Some (cache st !! js "user_1") →
       simulateRealTimeUpdates_tick nowSeen nowUpdated st = (r, st1, tr) →
       lastUpdated_at (js "user_1") st1
       = Some (VStr (JS.toISOString nowUpdated))).
Proof.
  split_and!.
  - intros userId reply now p st1 tr Hmiss Hrun.
    rewrite fetchUserProfile_miss in Hrun by done.
    destruct (fetchUserProfile_resume_cases userId reply now st)
      as [(status & userData & p' & _ & _ & Hp & Hres)|[e Hres]];
      rewrite Hres in Hrun; [|discriminate Hrun].
    injection Hrun as <- <- <-.
    unfold lastUpdated_at, store_with. cbn [cache].
    rewrite lookup_insert_eq.
    exact (profileData_lastUpdated _ _ _ Hp).
  - intros userId partialData reply now p st1 tr Hrun.
    rewrite updateUserProfile_unfold in Hrun.
    destruct (failed reply) eqn:Hfail.
    { destruct (updateUserProfile_resume_failed userId reply now st Hfail)
        as [e He]. rewrite He in Hrun. discriminate Hrun. }
    destruct reply as [|status body]; [done|].
    apply negb_false_iff in Hfail.
    destruct body as [updatedData|].
    + rewrite updateUserProfile_resume_ok in Hrun by done.
      injection Hrun as <- <- <-.
      unfold lastUpdated_at, store_with. cbn [cache].
      rewrite lookup_insert_eq. cbn [mbind option_bind].
      rewrite mergedData_lookup. by rewrite decide_True.
    + unfold updateUserProfile_resume, update_failed in Hrun.
      revert Hrun. run. unfold json_of. rewrite Hfail. done.
  - intros nowSeen nowUpdated r st1 tr [prior Hprior] Hrun.
    rewrite (simulateRealTimeUpdates_tick_present _ _ _ _ Hprior) in Hrun.
    injection Hrun as <- <- <-.
    rewrite lastUpdated_at_store_with. apply lookup_insert_eq.
Qed.

(** ** generateAvatarURL *)

Lemma includes_spec (w s : jsstring) :
  JS.includes w s = true ↔ ∃ pre post, s = pre ++ w ++ post.
Proof.
  assert (∀ w s, JS.startsWith w s = true ↔ ∃ post, s = w ++ post) as Hsw.
  { clear. induction w as [|a w IH]; intros s; cbn.
    - split; [by exists s|done].
    - destruct s as [|b s]; [split; [done|by intros [? ?]]|].
      rewrite andb_true_iff, N.eqb_eq, IH. split.
      + intros [-> [post ->]]. by exists post.
      + intros [post [= -> ->]]. split; [done|by exists post]. }
  induction s as [|c s IH]; cbn [JS.includes]; rewrite orb_true_iff, Hsw.
  - split.
    + intros [[post ->]|?]; [|done]. by exists [], post.
    + intros (pre & post & H). left. destruct pre; [by exists post|done].
  - rewrite IH. split.
    + intros [[post ->]|(pre & post & ->)]; [by exists [], post|].
      by exists (c :: pre), post.
    + intros (pre & post & H). destruct pre as [|c' pre].
      * left. by exists post.
      * right. injection H as -> ->. by exists pre, post.
Qed.

Lemma encodeURIComponent_fails (s : jsstring) :
  JS.isWellFormed s = false → JS.encodeURIComponent s = None.
Proof.
  remember (length s) as n eqn:Hn.
  revert s Hn. induction n as [n IH] using lt_wf_ind. intros s -> Hwf.
  destruct s as [|c r]; [done|].
  cbn [JS.encodeURIComponent JS.isWellFormed] in *.
  destruct (JS.unescaped c) eqn:Hu.
  - apply unescaped_not_surrogate in Hu as [Hl Ht]. rewrite Hl, Ht in Hwf.
    by rewrite (IH (length r)) with (s := r); cbn; [|lia| |].
  - destruct (JS.is_trail c); [done|].
    destruct (JS.is_lead c).
    + destruct r as [|d r']; [done|].
      destruct (JS.is_trail d); [|done]. cbn in Hwf.
      by rewrite (IH (length r')) with (s := r'); cbn; [|lia| |].
    + by rewrite (IH (length r)) with (s := r); cbn; [|lia| |].
Qed.

(** C1, as the code has it. [generateAvatarURL] is a function of the
    name alone. For a well-formed string it returns the fixed avatar
    service template with the [encodeURIComponent] encoding of the whole
    name as the [name] parameter; the local [initials] is computed and
    not used, so the result is the same whatever upper-casing yields. On a
    string with a lone surrogate it throws a URIError. *)
Theorem generateAvatarURL_embeds_encoded_name (name : jsstring) :
  (JS.isWellFormed name = true →
   ∃ encoded,
     JS.encodeURIComponent name = Some encoded
     ∧ generateAvatarURL (VStr name)
       = inr (js "https://ui-avatars.com/api/?name=" ++ encoded
              ++ js "&size=80&background=667eea&color=ffffff&bold=true"))
  ∧ (JS.isWellFormed name = false →
     generateAvatarURL (VStr name) = inl URIError_).
Proof.
  split.
  - intros [encoded He]%encodeURIComponent_total.
    exists encoded. split; [done|].
    unfold generateAvatarURL. by rewrite He.
  - intros He%encodeURIComponent_fails.
    unfold generateAvatarURL. by rewrite He.
Qed.

(** ** Further properties of the store *)

Lemma store_eta (st : Store) :
  {| cache := cache st; subscribers := subscribers st |} = st.
Proof. by destruct st. Qed.

(** The record is built exactly from the bodies that are an object with
    a well-formed string [name]. *)
Lemma profileData_succeeds_iff userData now :
  (∃ p, profileData userData now = inr p)
  ↔ ∃ name, JS.get userData (js "name") = inr (VStr name)
            ∧ JS.isWellFormed name = true.
Proof.
  split.
  - intros [p Hp].
    destruct userData as [| | | | |l|o];
      try (unfold profileData, JS.get, mbind, throwing_bind,
             generateAvatarURL in Hp; discriminate Hp).
    unfold profileData, JS.get, mbind, throwing_bind in Hp.
    destruct (default VUndefined (o !! js "name")) as [| | | |name| |] eqn:Hn;
      try (unfold generateAvatarURL in Hp; discriminate Hp).
    exists name. split; [unfold JS.get; by rewrite Hn|].
    destruct (JS.isWellFormed name) eqn:Hwf; [done|].
    unfold generateAvatarURL in Hp.
    by rewrite (encodeURIComponent_fails name Hwf) in Hp.
  - intros (name & Hname & Hwf).
    destruct (profileData_of_named userData name now Hname Hwf) as (p & Hp & _).
    by exists p.
Qed.

Lemma fetchUserProfile_returns_or_fails_aux
    (userId : JSValue) (reply : Reply) (now : Z) (st : Store) :
  ∃ r st' tr,
    fetchUserProfile userId reply now st = (r, st', tr)
    ∧ subscribers st' = subscribers st
    ∧ ((∃ p, r = Returns p
             ∧ cache st'
               = <[cacheKey (param userId (VNum 1)) := p]> (cache st))
       ∨ (r = Throws fetch_error ∧ st' = st)).
Proof.
  destruct (cache st !! cacheKey (param userId (VNum 1))) as [p|] eqn:Hc.
  - exists (Returns p), st, []. rewrite (fetchUserProfile_hit _ _ _ _ p Hc).
    split_and!; [done | done |].
    left. exists p. split; [done|]. by rewrite insert_id.
  - rewrite fetchUserProfile_miss by done.
    destruct (fetchUserProfile_resume_cases userId reply now st)
      as [(status & userData & p & _ & _ & _ & ->)|[e ->]].
    + eexists _, _, _. split; [reflexivity|]. split; [done|].
      left. by exists p.
    + eexists _, _, _. split; [reflexivity|]. split; [done|]. by right.
Qed.

(** X1. Whatever the identifier, the reply and the store, a call of
    [fetchUserProfile] ends in one of two ways. It returns a record, and
    then the cache is the old cache with that record under the key, the
    subscribers are the same; or it throws the one fixed error, and then
    the store is exactly as before. Either way it sends at most one
    request and calls no subscriber. *)
Theorem fetchUserProfile_returns_or_fails
    (userId : JSValue) (reply : Reply) (now : Z) (st : Store) :
  ∃ r st' tr,
    fetchUserProfile userId reply now st = (r, st', tr)
    ∧ calls tr = []
    ∧ length (requests tr) ≤ 1
    ∧ subscribers st' = subscribers st
    ∧ ((∃ p, r = Returns p
             ∧ cache st'
               = <[cacheKey (param userId (VNum 1)) := p]> (cache st))
       ∨ (r = Throws fetch_error ∧ st' = st)).
Proof.
  destruct (cache st !! cacheKey (param userId (VNum 1))) as [p|] eqn:Hc.
  - exists (Returns p), st, []. rewrite (fetchUserProfile_hit _ _ _ _ p Hc).
    split_and!; [done | done | cbn; lia | done |].
    left. exists p. split; [done|]. by rewrite insert_id.
  - rewrite fetchUserProfile_miss by done.
    destruct (fetchUserProfile_resume_cases userId reply now st)
      as [(status & userData & p & _ & _ & _ & ->)|[e ->]].
    + eexists _, _, _. split; [reflexivity|].
      split_and!; [done | cbn; lia | done |].
      left. by exists p.
    + eexists _, _, _. split; [reflexivity|].
      split_and!; [done | cbn; lia | done |]. by right.
Qed.

Lemma fetchUserProfile_succeeds_iff_aux
    (userId : JSValue) (reply : Reply) (now : Z) (st : Store) :
  cache st !! cacheKey (param userId (VNum 1)) = None →
  (∃ p st' tr, fetchUserProfile userId reply now st = (Returns p, st', tr)) →
  ∃ status userData name,
    reply = Response status (Some userData)
    ∧ ok status = true
    ∧ JS.get userData (js "name") = inr (VStr name)
    ∧ JS.isWellFormed name = true.
Proof.
  intros Hmiss (p & st' & tr & Hrun).
  rewrite fetchUserProfile_miss in Hrun by done.
  destruct (fetchUserProfile_resume_cases userId reply now st)
    as [(status & userData & p' & -> & Hok & Hp & Hres)|[e Hres]];
    rewrite Hres in Hrun; [|discriminate Hrun].
  destruct (proj1 (profileData_succeeds_iff userData now))
    as (name & Hname & Hwf); [by exists p'|].
  by exists status, userData, name.
Qed.

(** X2. When nothing is cached for the key, [fetchUserProfile] returns
    a record exactly when the reply has a 2xx status and a JSON body that
    is an object whose [name] is a well-formed string. A body that is
    [null] or not an object, a missing or non-string [name], or a name
    with a lone surrogate make the call throw, like a failed request. *)
Theorem fetchUserProfile_succeeds_iff
    (userId : JSValue) (reply : Reply) (now : Z) (st : Store) :
  cache st !! cacheKey (param userId (VNum 1)) = None →
  (∃ p st' tr, fetchUserProfile userId reply now st = (Returns p, st', tr))
  ↔ ∃ status userData name,
      reply = Response status (Some userData)
      ∧ ok status = true
      ∧ JS.get userData (js "name") = inr (VStr name)
      ∧ JS.isWellFormed name = true.
Proof.
  intros Hmiss. split.
  - intros (p & st' & tr & Hrun).
    rewrite fetchUserProfile_miss in Hrun by done.
    destruct (fetchUserProfile_resume_cases userId reply now st)
      as [(status & userData & p' & -> & Hok & Hp & Hres)|[e Hres]];
      rewrite Hres in Hrun; [|discriminate Hrun].
    destruct (proj1 (profileData_succeeds_iff userData now))
      as (name & Hname & Hwf); [by exists p'|].
    by exists status, userData, name.
  - intros (status & userData & name & -> & Hok & Hname & Hwf).
    destruct (fetchUserProfile_miss_ok userId status userData name now st
                Hmiss Hok Hname Hwf) as (p & Hrun & _).
    by eexists p, _, _.
Qed.

(** X3. What a failing [fetchUserProfile] tells the console. The error
    thrown is always the same, but the console line names the cause: the
    rejection of the request, the status of a non-2xx response, a body
    that is not JSON, a body that is [null], a [name] that is not a
    string, a name that cannot be encoded. *)
Theorem fetchUserProfile_logs_the_cause
    (userId : JSValue) (now : Z) (st : Store) :
  cache st !! cacheKey (param userId (VNum 1)) = None →
  let failing reply cause :=
    fetchUserProfile userId reply now st
    = (Throws fetch_error, st,
       [Fetch (get_request (param userId (VNum 1)));
        ConsoleError (js "Error fetching user profile:") cause]) in
  failing Rejected FetchRejected
  ∧ (∀ status body, ok status = false →
       failing (Response status body)
         (Error_ (js "HTTP error! status: " ++ JS.toString (VNum status))))
  ∧ (∀ status, ok status = true →
       failing (Response status None) SyntaxError_)
  ∧ (∀ status userData, ok status = true →
       (∀ name, JS.get userData (js "name") ≠ inr (VStr name)) →
       failing (Response status (Some userData)) TypeError_)
  ∧ (∀ status userData name, ok status = true →
       JS.get userData (js "name") = inr (VStr name) →
       JS.isWellFormed name = false →
       failing (Response status (Some userData)) URIError_).
Proof.
  intros Hmiss failing. subst failing. cbv beta.
  split_and!; intros; rewrite fetchUserProfile_miss by done;
    unfold fetchUserProfile_resume, fetch_failed; run.
  - done.
  - unfold json_of. by rewrite H.
  - unfold json_of. by rewrite H.
  - rewrite json_of_ok by done.
    destruct userData as [| | | | |l|o]; try done.
    unfold profileData, JS.get, mbind at 1 2 3 4, throwing_bind.
    destruct (o !! js "name") as [[| | | |name| |]|] eqn:Hn; cbn; try done.
    destruct (H0 name). unfold JS.get. by rewrite Hn.
  - rewrite json_of_ok by done.
    destruct userData as [| | | | |l|o]; try done.
    injection H0 as H0.
    unfold profileData, JS.get, mbind at 1 2 3 4, throwing_bind.
    rewrite H0. cbn. by rewrite (encodeURIComponent_fails name H1).
Qed.

(** X4. A call of [updateUserProfile] ends in one of two ways. When the
    reply has a 2xx status and a body that is JSON, whatever JSON value it
    is, the call returns the merged record; in every other case it throws
    the one fixed error, the store is exactly as before and no subscriber
    is called. The console line names the cause of a failure. *)
Theorem updateUserProfile_returns_or_fails
    (userId partialData : JSValue) (reply : Reply) (now : Z) (st : Store) :
  let failing cause :=
    updateUserProfile userId partialData reply now st
    = (Throws update_error, st,
       [Fetch (put_request userId partialData);
        ConsoleError (js "Error updating user profile:") cause]) in
  match reply with
  | Rejected => failing FetchRejected
  | Response status body =>
      if ok status then
        match body with
        | Some updatedData =>
            ∃ tr,
              updateUserProfile userId partialData reply now st
              = (Returns
                   (mergedData (default ∅ (cache st !! cacheKey userId))
                      updatedData now),
                 store_with (cacheKey userId)
                   (mergedData (default ∅ (cache st !! cacheKey userId))
                      updatedData now) st,
                 Fetch (put_request userId partialData) :: tr)
              ∧ requests tr = []
        | None => failing SyntaxError_
        end
      else
        failing
          (Error_ (js "HTTP error! status: " ++ JS.toString (VNum status)))
  end.
Proof.
  intros failing. subst failing. cbv beta.
  destruct reply as [|status body].
  - rewrite updateUserProfile_unfold.
    by unfold updateUserProfile_resume, update_failed; run.
  - destruct (ok status) eqn:Hok; [destruct body as [updatedData|]|].
    + eexists. rewrite updateUserProfile_unfold.
      rewrite updateUserProfile_resume_ok by done.
      split; [reflexivity|]. apply requests_deliveries.
    + rewrite updateUserProfile_unfold.
      unfold updateUserProfile_resume, update_failed; run.
      unfold json_of. by rewrite Hok.
    + rewrite updateUserProfile_unfold.
      unfold updateUserProfile_resume, update_failed; run.
      unfold json_of. by rewrite Hok.
Qed.

(** X5. [fetchUserProfile], [updateUserProfile] and a refresh tick
    write to one cache key only: whatever they end in, the entry of every
    other key is what it was, and the subscriber set is unchanged. *)
Theorem writes_touch_one_key (st : Store) (k : jsstring) :
  (∀ userId reply now r st' tr,
     fetchUserProfile userId reply now st = (r, st', tr) →
     k ≠ cacheKey (param userId (VNum 1)) →
     cache st' !! k = cache st !! k ∧ subscribers st' = subscribers st)
  ∧ (∀ userId partialData reply now r st' tr,
       updateUserProfile userId partialData reply now st = (r, st', tr) →
       k ≠ cacheKey userId →
       cache st' !! k = cache st !! k ∧ subscribers st' = subscribers st)
  ∧ (∀ nowSeen nowUpdated r st' tr,
       simulateRealTimeUpdates_tick nowSeen nowUpdated st = (r, st', tr) →
       k ≠ js "user_1" →
       cache st' !! k = cache st !! k ∧ subscribers st' = subscribers st).
Proof.
  split_and!.
  - intros userId reply now r st' tr Hrun Hk.
    destruct (fetchUserProfile_returns_or_fails_aux userId reply now st)
      as (r0 & st0 & tr0 & Hrun0 & Hsubs & Hcases).
    rewrite Hrun in Hrun0. injection Hrun0 as <- <- <-.
    split; [|done].
    destruct Hcases as [(p & _ & ->)|[_ ->]]; [|done].
    by rewrite lookup_insert_ne.
  - intros userId partialData reply now r st' tr Hrun Hk.
    rewrite updateUserProfile_unfold in Hrun.
    destruct (failed reply) eqn:Hfail.
    { destruct (updateUserProfile_resume_failed userId reply now st Hfail)
        as [e He]. rewrite He in Hrun. by injection Hrun as <- <- <-. }
    destruct reply as [|status [updatedData|]]; [done| |].
    + apply negb_false_iff in Hfail.
      rewrite updateUserProfile_resume_ok in Hrun by done.
      injection Hrun as <- <- <-. split; [|done].
      unfold store_with. cbn [cache]. by rewrite lookup_insert_ne.
    + apply negb_false_iff in Hfail.
      unfold updateUserProfile_resume, update_failed in Hrun.
      revert Hrun. run. unfold json_of. rewrite Hfail.
      by intros [= <- <- <-].
  - intros nowSeen nowUpdated r st' tr Hrun Hk.
    destruct (cache st !! js "user_1") as [prior|] eqn:Hc.
    + rewrite (simulateRealTimeUpdates_tick_present _ _ _ _ Hc) in Hrun.
      injection Hrun as <- <- <-. split; [|done].
      unfold store_with. cbn [cache]. by rewrite lookup_insert_ne.
    + unfold simulateRealTimeUpdates_tick in Hrun. revert Hrun. run.
      rewrite Hc. by intros [= <- <- <-].
Qed.

(** X6. Invalidating an identifier and then fetching it always goes
    to the network: whatever was cached and whatever the identifier is
    (falsy ones empty the cache, a missing one stands for user 1 in the
    fetch), the fetch after [clearCache] sends its GET. *)
Theorem clearCache_then_fetch_requests
    (userId : JSValue) (reply : Reply) (now : Z) (st : Store) :
  ∃ r st' tr,
    (clearCache userId ;; fetchUserProfile userId reply now) st = (r, st', tr)
    ∧ requests tr = [get_request (param userId (VNum 1))].
Proof.
  assert (∃ st1, clearCache userId st = (Returns tt, st1, [])
                 ∧ cache st1 !! cacheKey (param userId (VNum 1)) = None)
    as (st1 & Hclear & Hmiss).
  { unfold clearCache. destruct (JS.truthy (param userId VNull)) eqn:Ht.
    - eexists. split; [reflexivity|]. cbn [cache].
      replace (param userId (VNum 1)) with (param userId VNull)
        by by destruct userId.
      apply lookup_delete_eq.
    - eexists. split; [reflexivity|]. apply lookup_empty. }
  unfold mbind, M_bind. rewrite Hclear.
  rewrite fetchUserProfile_miss by done.
  destruct (fetchUserProfile_resume_cases userId reply now st1)
    as [(status & userData & p & _ & _ & _ & ->)|[e ->]];
    by eexists _, _, _.
Qed.

Lemma js_inj (a b : string) : js a = js b → a = b.
Proof.
  unfold js. intros H.
  assert (Inj (=) (=) N_of_ascii) as Hinj.
  { intros x y Hxy. by rewrite <- (ascii_N_embedding x), <- (ascii_N_embedding y), Hxy. }
  apply (inj (List.map N_of_ascii)) in H.
  by rewrite <- (string_of_list_ascii_of_string a),
    <- (string_of_list_ascii_of_string b), H.
Qed.

(** X7. Cache keys keep safe-integer identifiers apart: two different
    integers of at most [2^53 - 1] in absolute value never share a key, so
    a record cached for one such user is never served for another. *)
Theorem cacheKey_separates_integers (a b : Z) :
  JS.isSafeInteger a → JS.isSafeInteger b →
  a ≠ b → cacheKey (VNum a) ≠ cacheKey (VNum b).
Proof.
  intros _ _ Hab Hkey. apply Hab.
  unfold cacheKey in Hkey. apply app_inv_head in Hkey.
  cbn [JS.toString] in Hkey. apply js_inj in Hkey.
  by apply (inj pretty) in Hkey.
Qed.

Lemma set_delete_add (cb : Callback) (l : list Callback) :
  cb ∉ l → set_delete cb (set_add cb l) = l.
Proof.
  clear unicode_upper callback_body.
  intros H. unfold set_add. rewrite decide_False by exact H.
  unfold set_delete. rewrite filter_app.
  rewrite filter_cons_False by (intros Hc; by apply Hc).
  rewrite filter_nil, app_nil_r.
  induction l as [|c l IH]; [reflexivity|].
  apply not_elem_of_cons in H as [Hne Hl].
  rewrite filter_cons_True by (intros ->; by apply Hne).
  f_equal. by apply IH.
Qed.

(** X8. Subscribing a callback that is not registered and calling the
    disposer brings the store back to exactly what it was. *)
Theorem subscribe_unsubscribe_round_trip (cb : Callback) (st : Store) :
  cb ∉ subscribers st →
  (d ← subscribe cb; unsubscribe d) st = (Returns tt, st, []).
Proof.
  clear unicode_upper callback_body.
  intros H. unfold subscribe, unsubscribe. run.
  cbn [subscribers cache disposer_callback].
  rewrite set_delete_add by exact H. by rewrite store_eta.
Qed.

(** X9. A disposer silences its own callback and nothing else: after it
    is called, a broadcast makes the calls it made before, in the same
    order, except those to that callback; the cache is untouched. *)
Theorem unsubscribe_silences_only_its_callback
    (d : Disposer) (p : Profile) (st : Store) :
  ∃ st',
    unsubscribe d st = (Returns tt, st', [])
    ∧ cache st' = cache st
    ∧ calls (notifySubscribers p st').2
      = filter (λ c, c.1 ≠ disposer_callback d)
          (calls (notifySubscribers p st).2).
Proof.
  eexists. split; [reflexivity|]. split; [done|].
  rewrite !notifySubscribers_run. cbn [snd subscribers].
  rewrite !calls_deliveries. unfold set_delete.
  induction (subscribers st) as [|c l IH]; [done|].
  rewrite fmap_cons, filter_cons. cbn [fst].
  destruct (decide (c ≠ disposer_callback d)).
  - rewrite filter_cons_True by done. by rewrite fmap_cons, IH.
  - by rewrite filter_cons_False.
Qed.

(** A later tick overwrites the two stamps of an earlier one. *)
Lemma stamps_overwrite (prior : Profile) (a b c d : JSValue) :
  <[js "lastUpdated" := a]> (<[js "lastSeen" := b]>
    (<[js "lastUpdated" := c]> (<[js "lastSeen" := d]> prior)))
  = <[js "lastUpdated" := a]> (<[js "lastSeen" := b]> prior).
Proof.
  assert (js "lastSeen" ≠ js "lastUpdated") as Hne
    by (intros H; vm_compute in H; discriminate H).
  rewrite (insert_insert_ne (<[js "lastSeen" := d]> prior)
             (js "lastSeen") (js "lastUpdated") b c Hne).
  rewrite insert_insert_eq. f_equal. apply insert_insert_eq.
Qed.

(** X10. Any number of refresh ticks in a row returns, keeps the set
    of cached keys and the subscribers, and leaves every entry but the
    demo user's alone. Without an entry for the demo user nothing happens
    at all. With one, every tick hands to each subscriber once, in
    registration order, the record cached before the first tick with that
    tick's two stamps (the stamps of earlier ticks are overwritten, every
    other field is kept), and the record of the last tick is the one left
    in the cache. *)
Theorem ticks_keep_the_cache_keys (readings : list (Z * Z)) (st : Store) :
  ∃ st' tr,
    simulateRealTimeUpdates_ticks readings st = (Returns tt, st', tr)
    ∧ subscribers st' = subscribers st
    ∧ dom (cache st') = dom (cache st)
    ∧ (∀ k, k ≠ js "user_1" → cache st' !! k = cache st !! k)
    ∧ (cache st !! js "user_1" = None → st' = st ∧ tr = [])
    ∧ (∀ prior, cache st !! js "user_1" = Some prior →
         let record (reading : Z * Z) : Profile :=
           <[js "lastUpdated" := VStr (JS.toISOString reading.2)]>
             (<[js "lastSeen" := VStr (JS.toISOString reading.1)]> prior) in
         calls tr
         = readings ≫= (λ reading,
             (λ cb, (cb, record reading)) <$> subscribers st)
         ∧ cache st' !! js "user_1"
           = Some (from_option record prior (last readings))
         ∧ (∀ reading f, f ≠ js "lastSeen" → f ≠ js "lastUpdated" →
              record reading !! f = prior !! f)
         ∧ length (calls tr)
           = (length readings * length (subscribers st))%nat).
Proof.
  revert st. induction readings as [|[nowSeen nowUpdated] rest IH]; intros st.
  - exists st, []. split_and!; try done.
    intros prior Hp record. split_and!; try done.
    intros reading f H1 H2. unfold record. by rewrite !lookup_insert_ne.
  - cbn [simulateRealTimeUpdates_ticks]. unfold mbind, M_bind.
    destruct (cache st !! js "user_1") as [prior|] eqn:Hc.
    + rewrite (simulateRealTimeUpdates_tick_present _ _ _ _ Hc).
      set (updated := <[js "lastUpdated" := _]> (<[js "lastSeen" := _]> prior)).
      destruct (IH (store_with (js "user_1") updated st))
        as (st' & tr & -> & Hsubs & Hdom & Hother & _ & Hsome).
      destruct (Hsome updated) as (Hcalls & Hfinal & _ & Hlen);
        [apply lookup_insert_eq|].
      eexists _, _. split; [reflexivity|]. split_and!.
      * done.
      * rewrite Hdom. unfold store_with. cbn [cache].
        by rewrite dom_insert_lookup_L.
      * intros k Hk. rewrite Hother by done.
        unfold store_with. cbn [cache]. by rewrite lookup_insert_ne.
      * done.
      * intros prior' [= <-].
        set (record := λ reading : Z * Z,
               <[js "lastUpdated" := VStr (JS.toISOString reading.2)]>
                 (<[js "lastSeen" := VStr (JS.toISOString reading.1)]> prior)).
        assert (∀ reading : Z * Z,
                  <[js "lastUpdated" := VStr (JS.toISOString reading.2)]>
                    (<[js "lastSeen" := VStr (JS.toISOString reading.1)]>
                       updated)
                  = record reading) as Hrecord.
        { intros reading. subst updated record. apply stamps_overwrite. }
        split_and!.
        -- rewrite calls_app, calls_deliveries, Hcalls, bind_cons.
           cbn [subscribers store_with]. f_equal.
           clear IH Hsome Hcalls Hfinal Hlen.
           induction rest as [|reading rest' IHrest]; [done|].
           rewrite !bind_cons. f_equal; [|exact IHrest].
           by rewrite Hrecord.
        -- rewrite Hfinal, last_cons.
           destruct (last rest) as [reading|]; cbn [from_option]; [|done].
           by rewrite Hrecord.
        -- intros reading f H1 H2. unfold record.
           by rewrite !lookup_insert_ne.
        -- rewrite calls_app, length_app, Hlen, calls_deliveries, length_fmap.
           cbn [subscribers store_with length]. lia.
    + assert (simulateRealTimeUpdates_tick nowSeen nowUpdated st
              = (Returns tt, st, [])) as ->.
      { unfold simulateRealTimeUpdates_tick. run. by rewrite Hc. }
      destruct (IH st) as (st' & tr & -> & Hsubs & Hdom & Hother & Hnone & _).
      eexists _, _. split; [reflexivity|].
      destruct (Hnone Hc) as [-> ->]. by split_and!.
Qed.

(** X11. After an update of an identifier has succeeded, a fetch of
    that identifier returns the merged record from the cache and sends
    nothing. The identifier must not be [undefined]: the update keys it
    as it is, the fetch replaces it by user 1. *)
Theorem fetch_after_update_hits_the_cache
    (userId partialData : JSValue) (status : Z) (updatedData : JSValue)
    (now : Z) (reply' : Reply) (now' : Z) (st : Store) :
  userId ≠ VUndefined →
  ok status = true →
  ∃ merged st1 tr1,
    updateUserProfile userId partialData
      (Response status (Some updatedData)) now st
    = (Returns merged, st1, tr1)
    ∧ fetchUserProfile userId reply' now' st1 = (Returns merged, st1, []).
Proof.
  intros Hdef Hok.
  rewrite updateUserProfile_unfold, updateUserProfile_resume_ok by done.
  eexists _, _, _. split; [reflexivity|].
  apply fetchUserProfile_hit.
  replace (param userId (VNum 1)) with userId by by destruct userId.
  apply lookup_insert_eq.
Qed.

(** ** The encoding of the name in the avatar URL *)

Lemma hex_digit_unescaped (n : N) :
  (n < 16)%N → JS.unescaped (JS.hex_digit n) = true.
Proof.
  intros Hn. unfold JS.unescaped, JS.hex_digit, JS.in_range.
  destruct (n <? 10)%N eqn:H10.
  - apply N.ltb_lt in H10.
    replace ((48 <=? 48 + n) && (48 + n <=? 57))%N with true; [by rewrite !orb_true_r|].
    symmetry. apply andb_true_iff. rewrite !N.leb_le. lia.
  - apply N.ltb_ge in H10.
    replace ((65 <=? 55 + n) && (55 + n <=? 90))%N with true; [done|].
    symmetry. apply andb_true_iff. rewrite !N.leb_le. lia.
Qed.

Lemma percent_url_safe (octet : N) :
  (octet < 256)%N → Forall url_safe (JS.percent octet).
Proof.
  intros H. unfold JS.percent.
  apply Forall_cons. split; [by right|].
  apply Forall_cons. split; [left; apply hex_digit_unescaped; div_lia|].
  apply Forall_cons. split; [left; apply hex_digit_unescaped; div_lia|].
  apply Forall_nil_2.
Qed.

Lemma utf8_octets (cp : N) :
  (cp < 1114112)%N → Forall (λ o, (o < 256)%N) (JS.utf8 cp).
Proof.
  intros H. unfold JS.utf8.
  repeat case_match; rewrite ?N.ltb_lt, ?N.ltb_ge in *;
    repeat (apply Forall_cons; split; [div_lia|]); apply Forall_nil_2.
Qed.

Lemma escape_url_safe (cp : N) :
  (cp < 1114112)%N → Forall url_safe (JS.escape cp).
Proof.
  intros H. unfold JS.escape. apply Forall_concat, Forall_fmap.
  eapply Forall_impl; [by apply utf8_octets|].
  intros o Ho. by apply percent_url_safe.
Qed.

Lemma encodeURIComponent_url_safe (s e : jsstring) :
  Forall (λ c, (c < 65536)%N) s →
  JS.encodeURIComponent s = Some e →
  Forall url_safe e.
Proof.
  remember (length s) as n eqn:Hn.
  revert s e Hn. induction n as [n IH] using lt_wf_ind. intros s e -> Hs He.
  destruct s as [|c r]; [by injection He as <-|].
  apply Forall_cons in Hs as [Hc Hr].
  cbn [JS.encodeURIComponent] in He.
  destruct (JS.unescaped c) eqn:Hu.
  - destruct (JS.encodeURIComponent r) as [e'|] eqn:He'; [|done].
    injection He as <-. constructor; [by left|].
    by apply (IH (length r)) with (s := r); cbn; [lia| | |].
  - destruct (JS.is_trail c); [done|].
    destruct (JS.is_lead c) eqn:Hl.
    + destruct r as [|d r']; [done|].
      apply Forall_cons in Hr as [Hd Hr'].
      destruct (JS.is_trail d) eqn:Ht; [|done].
      destruct (JS.encodeURIComponent r') as [e'|] eqn:He'; [|done].
      injection He as <-. apply Forall_app. split.
      * apply escape_url_safe.
        unfold JS.is_lead, JS.is_trail, JS.in_range in Hl, Ht.
        apply andb_true_iff in Hl as [Hl1 Hl2], Ht as [Ht1 Ht2].
        apply N.leb_le in Hl1, Hl2, Ht1, Ht2. lia.
      * by apply (IH (length r')) with (s := r'); cbn; [lia| | |].
    + destruct (JS.encodeURIComponent r) as [e'|] eqn:He'; [|done].
      injection He as <-. apply Forall_app. split.
      * apply escape_url_safe. lia.
      * by apply (IH (length r)) with (s := r); cbn; [lia| | |].
Qed.

(** X12. Whatever the name contains, the part of the avatar URL that
    carries it consists of letters, digits, [- _ . ! ~ * ' ( )] and [%]
    only, so a name cannot add a parameter to the query or end it; the
    whole URL is ASCII. The name is a string of UTF-16 code units. *)
Theorem avatar_url_is_url_safe (name url : jsstring) :
  Forall (λ c, (c < 65536)%N) name →
  generateAvatarURL (VStr name) = inr url →
  ∃ encoded,
    url = avatarTemplate encoded
    ∧ Forall url_safe encoded
    ∧ Forall (λ c, c ∉ js "&=#?/+ <>") encoded
    ∧ Forall (λ c, (c < 128)%N) url.
Proof.
  intros Hname Hurl. unfold generateAvatarURL in Hurl.
  destruct (JS.encodeURIComponent name) as [encoded|] eqn:He; [|done].
  injection Hurl as <-. exists encoded.
  pose proof (encodeURIComponent_url_safe name encoded Hname He) as Hsafe.
  assert (∀ c, url_safe c → (c < 128)%N ∧ c ∉ js "&=#?/+ <>") as Hc.
  { intros c [Hu| ->].
    - assert (c < 128)%N as Hlt.
      { unfold JS.unescaped, JS.in_range in Hu.
        rewrite !orb_true_iff, !andb_true_iff, !N.leb_le in Hu.
        destruct Hu as [[[H|H]|H]|H]; [lia..|].
        apply bool_decide_eq_true in H. vm_compute js in H.
        repeat (apply elem_of_cons in H as [->|H]; [lia|]).
        by apply elem_of_nil in H. }
      split; [done|]. intros Hin. vm_compute js in Hin.
      repeat (apply elem_of_cons in Hin as [->|Hin]; [by vm_compute in Hu|]).
      by apply elem_of_nil in Hin.
    - split; [lia|]. intros Hin. vm_compute js in Hin.
      repeat (apply elem_of_cons in Hin as [Hin|Hin]; [lia|]).
      by apply elem_of_nil in Hin. }
  split_and!; [done | done | |].
  - eapply Forall_impl; [exact Hsafe|]. intros c Hcs. by apply Hc.
  - unfold avatarTemplate. rewrite !Forall_app. split_and!.
    + by vm_compute; repeat constructor.
    + eapply Forall_impl; [exact Hsafe|]. intros c Hcs. by apply Hc.
    + by vm_compute; repeat constructor.
Qed.

Lemma encodeURIComponent_unescaped (s : jsstring) :
  Forall (λ c, JS.unescaped c = true) s → JS.encodeURIComponent s = Some s.
Proof.
  induction 1 as [|c r Hc Hr IH]; [done|].
  cbn [JS.encodeURIComponent]. by rewrite Hc, IH.
Qed.

(** X13. A name made of letters, digits and [- _ . ! ~ * ' ( )] only
    appears in the avatar URL exactly as it is. *)
Theorem avatar_url_keeps_plain_names (name : jsstring) :
  Forall (λ c, JS.unescaped c = true) name →
  generateAvatarURL (VStr name) = inr (avatarTemplate name).
Proof.
  intros H. unfold generateAvatarURL.
  by rewrite encodeURIComponent_unescaped.
Qed.

(** ** The record a fetch builds *)

Lemma or_else_empty_or_truthy (v : JSValue) :
  JS.or_else v (VStr []) = VStr [] ∨ JS.truthy (JS.or_else v (VStr [])) = true.
Proof. unfold JS.or_else. destruct (JS.truthy v) eqn:E; [by right|by left]. Qed.

(** X22. The record a successful fetch returns and caches has nine
    fields and no other. [name] is the body's name, [avatar] the avatar
    URL of that name, [lastUpdated] the stamp of the clock reading.
    [id], [email], [username], [phone] and [website] are what the body
    holds, and [undefined] when the body has no such field. [company] is
    the [name] of the body's [company] when that is truthy, and the empty
    string in every other case: no [company], a [company] that is not an
    object, one without a [name], or one whose [name] is falsy. *)
Theorem fetched_record_fields
    (userId : JSValue) (status : Z) (o : gmap jsstring JSValue)
    (name : jsstring) (now : Z) (st : Store) :
  cache st !! cacheKey (param userId (VNum 1)) = None →
  ok status = true →
  o !! js "name" = Some (VStr name) →
  JS.isWellFormed name = true →
  ∃ p encoded company,
    fetchUserProfile userId (Response status (Some (VObj o))) now st
    = (Returns p, store_with (cacheKey (param userId (VNum 1))) p st,
       [Fetch (get_request (param userId (VNum 1)))])
    ∧ dom p
      = list_to_set
          [js "id"; js "name"; js "email"; js "avatar"; js "username";
           js "phone"; js "website"; js "company"; js "lastUpdated"]
    ∧ p !! js "name" = Some (VStr name)
    ∧ JS.encodeURIComponent name = Some encoded
    ∧ p !! js "avatar" = Some (VStr (avatarTemplate encoded))
    ∧ p !! js "lastUpdated" = Some (VStr (JS.toISOString now))
    ∧ (∀ f, f ∈ [js "id"; js "email"; js "username"; js "phone";
                 js "website"] →
         p !! f = Some (default VUndefined (o !! f)))
    ∧ p !! js "company" = Some company
    ∧ (company = VStr [] ∨ JS.truthy company = true)
    ∧ (∀ c v, o !! js "company" = Some (VObj c) →
         c !! js "name" = Some v → JS.truthy v = true → company = v)
    ∧ ((∀ c v, o !! js "company" = Some (VObj c) →
          c !! js "name" = Some v → JS.truthy v = false) →
       company = VStr []).
Proof.
  intros Hmiss Hok Hname Hwf.
  destruct (encodeURIComponent_total name Hwf) as [encoded He].
  eexists _, encoded, _.
  split.
  { rewrite fetchUserProfile_miss by done.
    unfold fetchUserProfile_resume. run.
    rewrite json_of_ok by done.
    unfold profileData, JS.get, generateAvatarURL, mbind at 1 2 3 4 5 6 7 8,
      throwing_bind.
    rewrite Hname. cbn [default from_option id]. rewrite He. reflexivity. }
  split_and!.
  - rewrite dom_list_to_map_L. reflexivity.
  - read_field.
  - done.
  - read_field.
  - read_field.
  - intros f Hf.
    repeat (apply elem_of_cons in Hf as [->|Hf]; [read_field|]).
    by apply elem_of_nil in Hf.
  - read_field.
  - apply or_else_empty_or_truthy.
  - intros c v Hc Hv Ht. unfold JS.or_else, JS.get_opt, JS.get.
    rewrite Hc. cbn [default from_option id]. rewrite Hv.
    cbn [default from_option id]. by rewrite Ht.
  - intros Hfalsy. unfold JS.or_else, JS.get_opt, JS.get.
    destruct (o !! js "company") as [[| | | | | |c]|] eqn:Hc;
      cbn [default from_option id JS.truthy]; try reflexivity.
    destruct (c !! js "name") as [v|] eqn:Hv;
      cbn [default from_option id JS.truthy]; [|reflexivity].
    by rewrite (Hfalsy c v eq_refl Hv).
Qed.

(** ** The life of a cache key *)

Lemma fetchable_spec (reply : Reply) :
  fetchable reply = true
  ↔ ∃ status userData name,
      reply = Response status (Some userData)
      ∧ ok status = true
      ∧ JS.get userData (js "name") = inr (VStr name)
      ∧ JS.isWellFormed name = true.
Proof.
  split.
  - destruct reply as [|status [userData|]]; try done. cbn.
    intros [Hok H]%andb_true_iff.
    destruct (JS.get userData (js "name")) as [|[| | | |name| |]] eqn:E;
      try done.
    by exists status, userData, name.
  - intros (status & userData & name & -> & Hok & Hn & Hwf). cbn.
    by rewrite Hok, Hn.
Qed.

Lemma present_after_perform (key : jsstring) (op : Operation) (st : Store) :
  bool_decide (is_Some (cache (perform op st) !! key))
  = present_after key op (bool_decide (is_Some (cache st !! key))).
Proof.
  destruct op as [userId reply now|userId data reply now|userId
                 |nowSeen nowUpdated|cb|d]; cbn [perform present_after].
  - destruct (fetchUserProfile_returns_or_fails_aux userId reply now st)
      as (r & st' & tr & Hrun & _ & Hcases).
    rewrite Hrun. cbn [fst snd].
    destruct (decide (cacheKey (param userId (VNum 1)) = key)) as [<-|Hne].
    + destruct (cache st !! cacheKey (param userId (VNum 1))) as [p0|] eqn:Hc.
      * rewrite (fetchUserProfile_hit _ _ _ _ p0 Hc) in Hrun.
        injection Hrun as <- <- <-. rewrite Hc.
        by rewrite bool_decide_eq_true_2 by by eexists.
      * rewrite (bool_decide_eq_false_2 (is_Some None)) by by intros [? ?].
        cbn [orb].
        destruct (fetchable reply) eqn:Hf.
        -- apply fetchable_spec in Hf
             as (status & userData & name & -> & Hok & Hn & Hwf).
           destruct (fetchUserProfile_miss_ok userId status userData name now
                       st Hc Hok Hn Hwf) as (p & Hp & _).
           rewrite Hp in Hrun. injection Hrun as <- <- <-.
           unfold store_with. cbn [cache]. rewrite lookup_insert_eq.
           by rewrite bool_decide_eq_true_2 by by eexists.
        -- destruct Hcases as [(p & -> & ->)|[-> ->]].
           ++ exfalso.
              assert (fetchable reply = true); [|congruence].
              apply fetchable_spec.
              apply (fetchUserProfile_succeeds_iff_aux userId reply now st Hc).
              by eexists p, _, _.
           ++ rewrite Hc. by apply bool_decide_eq_false_2; intros [? ?].
    + destruct Hcases as [(p & _ & ->)|[_ ->]]; [|done].
      by rewrite lookup_insert_ne.
  - rewrite updateUserProfile_unfold.
    destruct (decide (cacheKey userId = key)) as [<-|Hne].
    + destruct reply as [|status [updatedData|]].
      * destruct (updateUserProfile_resume_failed userId Rejected now st
                    eq_refl) as [e ->]. cbn. by rewrite orb_false_r.
      * destruct (ok status) eqn:Hok.
        -- rewrite updateUserProfile_resume_ok by done.
           unfold store_with. cbn [fst snd cache mergeable].
           rewrite lookup_insert_eq, Hok, orb_true_r.
           by rewrite bool_decide_eq_true_2 by by eexists.
        -- destruct (updateUserProfile_resume_failed userId
                       (Response status (Some updatedData)) now st)
             as [e ->]; [cbn; by rewrite Hok|].
           cbn. by rewrite Hok, orb_false_r.
      * assert (updateUserProfile_resume userId (Response status None) now st
                = (Throws update_error, st,
                   [ConsoleError (js "Error updating user profile:")
                      (if ok status then SyntaxError_
                       else Error_ (js "HTTP error! status: "
                                      ++ JS.toString (VNum status)))]))
          as ->.
        { unfold updateUserProfile_resume, update_failed. run.
          unfold json_of. by destruct (ok status). }
        cbn. by rewrite orb_false_r.
    + destruct (failed reply) eqn:Hfail.
      { destruct (updateUserProfile_resume_failed userId reply now st Hfail)
          as [e ->]. done. }
      destruct reply as [|status [updatedData|]]; [done| |].
      * apply negb_false_iff in Hfail.
        rewrite updateUserProfile_resume_ok by done.
        unfold store_with. cbn [fst snd cache].
        by rewrite lookup_insert_ne.
      * apply negb_false_iff in Hfail.
        unfold updateUserProfile_resume, update_failed. run.
        unfold json_of. by rewrite Hfail.
  - unfold clearCache, cache_delete, cache_clear.
    destruct (JS.truthy (param userId VNull)); cbn [fst snd cache].
    + destruct (decide (cacheKey (param userId VNull) = key)) as [<-|Hne].
      * rewrite lookup_delete_eq.
        by apply bool_decide_eq_false_2; intros [? ?].
      * by rewrite lookup_delete_ne.
    + rewrite lookup_empty. by apply bool_decide_eq_false_2; intros [? ?].
  - destruct (cache st !! js "user_1") as [prior|] eqn:Hc.
    + rewrite (simulateRealTimeUpdates_tick_present _ _ _ _ Hc).
      unfold store_with. cbn [fst snd cache].
      destruct (decide (key = js "user_1")) as [->|Hne].
      * rewrite lookup_insert_eq, Hc.
        by rewrite !bool_decide_eq_true_2 by by eexists.
      * by rewrite lookup_insert_ne.
    + assert (simulateRealTimeUpdates_tick nowSeen nowUpdated st
              = (Returns tt, st, [])) as ->; [|done].
      unfold simulateRealTimeUpdates_tick. run. by rewrite Hc.
  - done.
  - done.
Qed.

(** X23. Through any sequence of calls on the store, each cache key
    goes through the two states absent and present as follows: a fetch or
    an update of that key makes it present when the call succeeds and
    leaves it as it is when the call fails; [clearCache] makes it absent
    when its argument is falsy or names that key; calls for other keys,
    refresh ticks, subscriptions and disposals do not change it. *)
Theorem cache_key_life (key : jsstring) (ops : list Operation) (st : Store) :
  bool_decide (is_Some (cache (perform_all ops st) !! key))
  = foldl (λ present op, present_after key op present)
      (bool_decide (is_Some (cache st !! key))) ops.
Proof.
  revert st. induction ops as [|op ops IH]; intros st; [done|].
  cbn [perform_all foldl]. fold (perform_all ops (perform op st)).
  by rewrite IH, present_after_perform.
Qed.

End UserAPI.

(** ** Concrete runs *)

(** The avatar URL of ["Jane Doe"], through the theorem on well-formed
    names. *)
Lemma generateAvatarURL_jane_doe :
  JS.isWellFormed (js "Jane Doe") = true
  ∧ generateAvatarURL plain_upper (VStr (js "Jane Doe"))
    = inr (js ("https://ui-avatars.com/api/?name=Jane%20Doe"
               +:+ "&size=80&background=667eea&color=ffffff&bold=true")).
Proof.
  split; [reflexivity|].
  destruct (generateAvatarURL_embeds_encoded_name plain_upper
              (js "Jane Doe")) as [H _].
  destruct (H eq_refl) as (e & He & ->).
  vm_compute in He. injection He as <-. reflexivity.
Defined.

(** C1 fails on the code. For ["Jane Doe"] the initials the method
    computes are ["JD"], but the URL it returns is not the template filled
    with them, and ["JD"] occurs nowhere in it. *)
Lemma avatar_url_of_jane_doe_lacks_initials :
  initials plain_upper (js "Jane Doe") = js "JD"
  ∧ ∃ url,
      generateAvatarURL plain_upper (VStr (js "Jane Doe")) = inr url
      ∧ url ≠ avatarTemplate (js "JD")
      ∧ ¬ ∃ pre post, url = pre ++ js "JD" ++ post.
Proof.
  split; [reflexivity|].
  eexists. split; [vm_compute; reflexivity|]. split.
  - intros H. vm_compute in H. discriminate H.
  - rewrite <- includes_spec. intros H. vm_compute in H. discriminate H.
Qed.

(** Two fetches of user 1 on a fresh store: one GET, then a cache hit
    even though the second request would have been rejected. *)
Lemma fetch_twice_run :
  cache new_UserAPI !! cacheKey (VNum 1) = None
  ∧ ∃ p st1,
      fetchUserProfile plain_upper (VNum 1) (Response 200 (Some jane)) t0
        new_UserAPI
      = (Returns p, st1, [Fetch (get_request (VNum 1))])
      ∧ fetchUserProfile plain_upper (VNum 1) Rejected t0 st1
        = (Returns p, st1, []).
Proof.
  split; [reflexivity|].
  destruct (fetchUserProfile_twice_one_request plain_upper (VNum 1)
              new_UserAPI) as [_ H].
  destruct (fetchUserProfile_miss_ok plain_upper (VNum 1) 200 jane
              (js "Jane Doe") t0 new_UserAPI eq_refl eq_refl eq_refl eq_refl)
    as (p & Hrun & _).
  exists p, (store_with (js "user_1") p new_UserAPI).
  split; [exact Hrun|].
  destruct (H _ _ _ _ _ eq_refl Hrun) as (_ & _ & H2).
  destruct (H2 Rejected t0) as (tr2 & Hrun2 & -> & _).
  exact Hrun2.
Defined.

(** A PUT answered with status 500 on the sample store. *)
Lemma update_failure_run :
  failed (Response 500 None) = true
  ∧ ∃ detail,
      updateUserProfile second_throws (VNum 1) renamed (Response 500 None)
        t0 sample_store
      = (Throws update_error, sample_store,
         [Fetch (put_request (VNum 1) renamed);
          ConsoleError (js "Error updating user profile:") detail]).
Proof.
  split; [reflexivity|].
  destruct (updateUserProfile_failure_keeps_cache second_throws (VNum 1)
              renamed (Response 500 None) t0 sample_store eq_refl)
    as (detail & tr & H & -> & _).
  by exists detail.
Defined.

(** Renaming the cached user: the response's [name] wins, the cached
    [id] stays, [email] is in neither and stays absent, and the three
    subscribers are called in order. *)
Lemma update_success_run :
  ok 200 = true
  ∧ ∃ merged tr,
      updateUserProfile silent (VNum 1) renamed
        (Response 200 (Some renamed)) t0 sample_store
      = (Returns merged, store_with (js "user_1") merged sample_store,
         Fetch (put_request (VNum 1) renamed) :: tr)
      ∧ calls tr = [(1, merged); (2, merged); (3, merged)]
      ∧ merged !! js "name" = Some (VStr (js "X"))
      ∧ merged !! js "id" = Some (VNum 1)
      ∧ merged !! js "email" = None
      ∧ merged !! js "lastUpdated" = Some (VStr (js "2026-11-02T00:00:00.000Z")).
Proof.
  split; [reflexivity|].
  destruct (updateUserProfile_merges_and_broadcasts silent (VNum 1) renamed
              200 renamed t0 sample_store eq_refl)
    as (tr & Hrun & _ & Hcalls & _ & Hstamp & Hfields).
  eexists _, tr. split; [exact Hrun|]. split; [exact Hcalls|].
  split_and!.
  - by rewrite Hfields.
  - by rewrite Hfields.
  - by rewrite Hfields.
  - exact Hstamp.
Defined.

(** The second of three subscribers throws: the third is still called
    and the update returns. *)
Lemma throwing_subscriber_run :
  ok 200 = true
  ∧ subscribers sample_store = [1] ++ 2 :: [3]
  ∧ ∃ merged tr1 tr2,
      second_throws 2 merged = Some (Thrown (VStr (js "boom")))
      ∧ updateUserProfile second_throws (VNum 1) renamed
          (Response 200 (Some renamed)) t0 sample_store
        = (Returns merged, store_with (js "user_1") merged sample_store,
           Fetch (put_request (VNum 1) renamed)
             :: tr1 ++ Call 2 merged
             :: ConsoleError (js "Error in subscriber callback:")
                  (Thrown (VStr (js "boom")))
             :: tr2)
      ∧ calls tr1 = [(1, merged)]
      ∧ calls tr2 = [(3, merged)].
Proof.
  split; [reflexivity|]. split; [reflexivity|].
  destruct (throwing_subscriber_is_isolated second_throws (VNum 1) renamed
              200 renamed t0 sample_store [1] [3] 2
              (Thrown (VStr (js "boom"))) eq_refl eq_refl eq_refl)
    as (tr1 & tr2 & Hrun & H1 & H2 & _).
  eexists _, tr1, tr2. split; [reflexivity|].
  split; [exact Hrun|]. split; [exact H1 | exact H2].
Defined.

(** A GET answered with 404 on a fresh store, then the same GET answered
    with Jane's record. *)
Lemma fetch_failure_run :
  cache new_UserAPI !! cacheKey (VNum 1) = None
  ∧ failed (Response 404 None) = true
  ∧ ∃ detail,
      fetchUserProfile plain_upper (VNum 1) (Response 404 None) t0
        new_UserAPI
      = (Throws fetch_error, new_UserAPI,
         [Fetch (get_request (VNum 1));
          ConsoleError (js "Error fetching user profile:") detail])
      ∧ ∃ p,
          fetchUserProfile plain_upper (VNum 1)
            (Response 200 (Some jane)) t0 new_UserAPI
          = (Returns p, store_with (js "user_1") p new_UserAPI,
             [Fetch (get_request (VNum 1))])
          ∧ p !! js "name" = Some (VStr (js "Jane Doe")).
Proof.
  split; [reflexivity|]. split; [reflexivity|].
  destruct (fetchUserProfile_failure_leaves_absent plain_upper (VNum 1)
              (Response 404 None) t0 new_UserAPI eq_refl eq_refl)
    as (detail & st' & Hrun & -> & _ & Hnext).
  exists detail. split; [exact Hrun|].
  destruct (Hnext 200%Z jane (js "Jane Doe") t0 eq_refl eq_refl eq_refl)
    as (p & Hp & _ & Hname).
  exists p. split; [exact Hp | exact Hname].
Defined.

(** A tick on a fresh store, and a tick on the sample store. *)
Lemma refresh_tick_run :
  simulateRealTimeUpdates_tick silent t0 (t0 + 1) new_UserAPI
  = (Returns tt, new_UserAPI, [])
  ∧ ∃ updated st' tr,
      simulateRealTimeUpdates_tick silent t0 (t0 + 1) sample_store
      = (Returns tt, st', tr)
      ∧ cache st' !! js "user_1" = Some updated
      ∧ subscribers st' = [1; 2; 3]
      ∧ calls tr = [(1, updated); (2, updated); (3, updated)]
      ∧ updated !! js "name" = sample_profile !! js "name"
      ∧ updated !! js "lastSeen" = Some (VStr (js "2026-11-02T00:00:00.000Z"))
      ∧ updated !! js "lastUpdated"
        = Some (VStr (js "2026-11-02T00:00:00.001Z")).
Proof.
  split.
  - by apply (refresh_tick_frame silent t0 (t0 + 1) new_UserAPI).
  - destruct (refresh_tick_frame silent t0 (t0 + 1) sample_store) as [_ H].
    destruct (H sample_profile eq_refl)
      as (updated & st' & tr & Hrun & _ & Hstored & _ & Hsubs & Hcalls & _
          & Hseen & Hupd & Hframe).
    exists updated, st', tr.
    split; [exact Hrun|]. split; [exact Hstored|]. split; [exact Hsubs|].
    split; [exact Hcalls|].
    split; [by apply Hframe|]. split; [exact Hseen | exact Hupd].
Defined.

(** Subscribing callback 7 twice to a fresh store. *)
Lemma subscribe_twice_run :
  NoDup (subscribers new_UserAPI)
  ∧ ∃ d st1,
      subscribe 7 new_UserAPI = (Returns d, st1, [])
      ∧ subscribe 7 st1 = (Returns d, st1, [])
      ∧ ∃ st2, unsubscribe d st1 = (Returns tt, st2, [])
          ∧ unsubscribe d st2 = (Returns tt, st2, []).
Proof.
  split; [apply NoDup_nil_2|].
  destruct (subscribe_is_by_identity silent 7 new_UserAPI (NoDup_nil_2))
    as (d & st1 & H1 & H2 & _ & _ & _ & st2 & H3 & _ & _ & _ & H4 & _).
  exists d, st1. split; [exact H1|]. split; [exact H2|].
  exists st2. split; [exact H3 | exact H4].
Defined.

(** C8 fails on the code. The same callback subscribed twice to a fresh
    store is registered once: a broadcast calls it once, not twice, and
    after the first disposer alone has been called no registration is
    left, so a broadcast calls nobody. *)
Lemma same_callback_twice_is_registered_once :
  ∃ d1 st1 d2 st2 st3,
    subscribe 7 new_UserAPI = (Returns d1, st1, [])
    ∧ subscribe 7 st1 = (Returns d2, st2, [])
    ∧ subscribers st2 = [7]
    ∧ (∀ p, calls (notifySubscribers silent p st2).2 = [(7, p)]
            ∧ calls (notifySubscribers silent p st2).2 ≠ [(7, p); (7, p)])
    ∧ unsubscribe d1 st2 = (Returns tt, st3, [])
    ∧ subscribers st3 = []
    ∧ ∀ p, calls (notifySubscribers silent p st3).2 = []
           ∧ calls (notifySubscribers silent p st3).2 ≠ [(7, p)].
Proof.
  eexists _, _, _, _, _.
  split; [reflexivity|]. split; [reflexivity|]. split; [reflexivity|].
  split; [by intros p|].
  split; [reflexivity|]. split; [reflexivity|]. by intros p.
Qed.

(** Stamps after a fetch at [t0], after an update five milliseconds
    later, and after a tick. *)
Lemma lastUpdated_run :
  (∃ p st1,
     fetchUserProfile plain_upper (VNum 1) (Response 200 (Some jane)) t0
       new_UserAPI
     = (Returns p, st1, [Fetch (get_request (VNum 1))])
     ∧ lastUpdated_at (js "user_1") st1
       = Some (VStr (js "2026-11-02T00:00:00.000Z")))
  ∧ (∃ p st1 tr,
       updateUserProfile silent (VNum 1) renamed
         (Response 200 (Some renamed)) (t0 + 5) sample_store
       = (Returns p, st1, tr)
       ∧ lastUpdated_at (js "user_1") st1
         = Some (VStr (js "2026-11-02T00:00:00.005Z")))
  ∧ (∃ st1 tr,
       simulateRealTimeUpdates_tick silent t0 (t0 + 1) sample_store
       = (Returns tt, st1, tr)
       ∧ lastUpdated_at (js "user_1") st1
         = Some (VStr (js "2026-11-02T00:00:00.001Z"))).
Proof.
  split_and!.
  - destruct (lastUpdated_is_the_clock_reading plain_upper silent
                new_UserAPI) as (H & _ & _).
    destruct (fetchUserProfile_miss_ok plain_upper (VNum 1) 200 jane
                (js "Jane Doe") t0 new_UserAPI eq_refl eq_refl eq_refl
                eq_refl) as (p & Hrun & _).
    eexists p, _. split; [exact Hrun|].
    exact (H (VNum 1) _ t0 _ _ _ eq_refl Hrun).
  - destruct (lastUpdated_is_the_clock_reading plain_upper silent
                sample_store) as (_ & H & _).
    pose proof (updateUserProfile_unfold silent (VNum 1) renamed
                  (Response 200 (Some renamed)) (t0 + 5) sample_store) as Hrun.
    rewrite (updateUserProfile_resume_ok silent (VNum 1) 200 renamed (t0 + 5)
               sample_store eq_refl) in Hrun.
    eexists _, _, _. split; [exact Hrun|].
    exact (H (VNum 1) _ _ (t0 + 5)%Z _ _ _ Hrun).
  - destruct (lastUpdated_is_the_clock_reading plain_upper silent
                sample_store) as (_ & _ & H).
    pose proof (simulateRealTimeUpdates_tick_present silent t0 (t0 + 1)
                  sample_store sample_profile eq_refl) as Hrun.
    cbv zeta in Hrun. eexists _, _. split; [exact Hrun|].
    exact (H t0 (t0 + 1)%Z _ _ _ (ex_intro _ sample_profile eq_refl) Hrun).
Defined.

(** C9 fails on the code. User 1 is fetched and then updated while the
    clock reads the same millisecond: both writes to the entry carry the
    stamp 2026-11-02T00:00:00.000Z, so [lastUpdated] did not increase
    from the first write to the second. *)
Lemma two_writes_in_one_millisecond_share_the_stamp :
  ∃ p1 st1 p2 st2 tr2,
    fetchUserProfile plain_upper (VNum 1) (Response 200 (Some jane)) t0
      new_UserAPI
    = (Returns p1, st1, [Fetch (get_request (VNum 1))])
    ∧ updateUserProfile silent (VNum 1) renamed
        (Response 200 (Some renamed)) t0 st1
      = (Returns p2, st2, tr2)
    ∧ lastUpdated_at (js "user_1") st1
      = Some (VStr (js "2026-11-02T00:00:00.000Z"))
    ∧ lastUpdated_at (js "user_1") st2
      = Some (VStr (js "2026-11-02T00:00:00.000Z"))
    ∧ JS.string_lt (js "2026-11-02T00:00:00.000Z")
        (js "2026-11-02T00:00:00.000Z") = false.
Proof.
  destruct (fetchUserProfile_miss_ok plain_upper (VNum 1) 200 jane
              (js "Jane Doe") t0 new_UserAPI eq_refl eq_refl eq_refl eq_refl)
    as (p1 & Hrun1 & _ & Hstamp1).
  set (st1 := store_with (cacheKey (param (VNum 1) (VNum 1))) p1 new_UserAPI)
    in Hrun1.
  pose proof (updateUserProfile_unfold silent (VNum 1) renamed
                (Response 200 (Some renamed)) t0 st1) as Hrun2.
  rewrite (updateUserProfile_resume_ok silent (VNum 1) 200 renamed t0 st1
             eq_refl) in Hrun2.
  eexists p1, st1, _, _, _.
  split; [exact Hrun1|]. split; [exact Hrun2|]. split_and!.
  - subst st1. change (js "user_1") with (cacheKey (param (VNum 1) (VNum 1))).
    rewrite lastUpdated_at_store_with. exact Hstamp1.
  - change (js "user_1") with (cacheKey (VNum 1)).
    rewrite lastUpdated_at_store_with, mergedData_lookup.
    by rewrite decide_True.
  - reflexivity.
Qed.

(** Invalidating user 0 and user 2 on the sample store, which caches
    user 1. *)
Lemma clearCache_run :
  JS.truthy (VNum 0) = false
  ∧ clearCache (VNum 0) sample_store
    = (Returns tt, {| cache := ∅; subscribers := [1; 2; 3] |}, [])
  ∧ JS.truthy (VNum 2) = true
  ∧ ∃ st', clearCache (VNum 2) sample_store = (Returns tt, st', [])
      ∧ cache st' !! js "user_1" = Some sample_profile.
Proof.
  destruct (clearCache_falsy_clears_everything (VNum 0) sample_store)
    as (H0 & _).
  destruct (clearCache_falsy_clears_everything (VNum 2) sample_store)
    as (_ & H2 & _).
  split; [reflexivity|]. split; [exact (H0 eq_refl)|].
  split; [reflexivity|].
  destruct (H2 eq_refl) as (st' & Hrun & _ & _ & Hkeep).
  exists st'. split; [exact Hrun|].
  rewrite Hkeep; [reflexivity|].
  intros H. vm_compute in H. discriminate H.
Defined.

(** ** escapeHtml *)

Set Warnings "-clear-no-such-hyp".

Lemma escape_unit_cases (c : N) :
  (c = 38%N ∧ escape_unit c = [38; 97; 109; 112; 59]%N)
  ∨ (c = 160%N ∧ escape_unit c = [38; 110; 98; 115; 112; 59]%N)
  ∨ (c = 60%N ∧ escape_unit c = [38; 108; 116; 59]%N)
  ∨ (c = 62%N ∧ escape_unit c = [38; 103; 116; 59]%N)
  ∨ (c ≠ 38%N ∧ c ≠ 160%N ∧ c ≠ 60%N ∧ c ≠ 62%N ∧ escape_unit c = [c]).
Proof.
  unfold escape_unit.
  destruct (c =? 38)%N eqn:H1; [apply N.eqb_eq in H1; subst; by left|].
  destruct (c =? 160)%N eqn:H2;
    [apply N.eqb_eq in H2; subst; by right; left|].
  destruct (c =? 60)%N eqn:H3;
    [apply N.eqb_eq in H3; subst; by right; right; left|].
  destruct (c =? 62)%N eqn:H4;
    [apply N.eqb_eq in H4; subst; by right; right; right; left|].
  apply N.eqb_neq in H1, H2, H3, H4. by right; right; right; right.
Qed.

Lemma innerHTML_of_text_cons (c : N) (s : jsstring) :
  innerHTML_of_text (c :: s) = escape_unit c ++ innerHTML_of_text s.
Proof. done. Qed.

(** X14. Whatever value it is given, the text [escapeHtml] returns
    holds no [<], no [>] and no no-break space, and every [&] in it opens
    one of the references [&amp;], [&nbsp;], [&lt;], [&gt;]: the text
    cannot open a tag or a reference of its own. *)
Theorem escapeHtml_has_no_markup (text : JSValue) :
  (60%N ∉ escapeHtml text)
  ∧ (62%N ∉ escapeHtml text)
  ∧ (160%N ∉ escapeHtml text)
  ∧ ∀ pre post,
      escapeHtml text = pre ++ 38%N :: post →
      ∃ tail rest, tail ∈ entity_tails ∧ post = tail ++ rest.
Proof.
  unfold escapeHtml. generalize (textContent_of text) as s.
  assert (∀ s c, c ∈ [60; 62; 160]%N → c ∉ innerHTML_of_text s) as Hno.
  { induction s as [|x s IH]; intros c Hc; [apply not_elem_of_nil|].
    rewrite innerHTML_of_text_cons, elem_of_app.
    intros [Hin|Hin]; [|by apply (IH c)].
    destruct (escape_unit_cases x)
      as [[_ E]|[[_ E]|[[_ E]|[[_ E]|(H1 & H2 & H3 & H4 & E)]]]];
      rewrite E in Hin; clear E;
      repeat (apply elem_of_cons in Hc as [->|Hc]);
      try (by apply elem_of_nil in Hc);
      repeat (apply elem_of_cons in Hin as [Hin|Hin]; [try done|]);
      try (by apply elem_of_nil in Hin). }
  intros s. split_and!; try (apply Hno; set_unfold; tauto).
  induction s as [|x s IH]; intros pre post Heq.
  { by destruct pre. }
  rewrite innerHTML_of_text_cons in Heq.
  assert (∀ tail, tail ∈ entity_tails → 38%N ∉ tail →
            escape_unit x = 38%N :: tail →
            ∃ tail' rest, tail' ∈ entity_tails ∧ post = tail' ++ rest)
    as Hent.
  { intros tail Hin Hamp E. rewrite E in Heq.
    destruct pre as [|p pre].
    - injection Heq as <-. by exists tail, (innerHTML_of_text s).
    - injection Heq as <- Heq.
      assert (∃ pre', pre = tail ++ pre'
                      ∧ innerHTML_of_text s = pre' ++ 38%N :: post)
        as (pre' & -> & Hs).
      { clear -Heq Hamp. revert pre Heq.
        induction tail as [|t tail IHt]; intros pre Heq.
        - by exists pre.
        - destruct pre as [|p pre].
          + injection Heq as -> _. set_solver.
          + injection Heq as -> Heq.
            destruct (IHt ltac:(set_solver) pre Heq) as (pre' & -> & Hs).
            by exists pre'. }
      by apply (IH pre' post). }
  destruct (escape_unit_cases x)
    as [[_ E]|[[_ E]|[[_ E]|[[_ E]|(H1 & _ & _ & _ & E)]]]].
  - apply (Hent (js "amp;")); [set_solver | | done].
    vm_compute. set_solver.
  - apply (Hent (js "nbsp;")); [set_solver | | done].
    vm_compute. set_solver.
  - apply (Hent (js "lt;")); [set_solver | | done].
    vm_compute. set_solver.
  - apply (Hent (js "gt;")); [set_solver | | done].
    vm_compute. set_solver.
  - rewrite E in Heq. destruct pre as [|p pre].
    + injection Heq as -> _. done.
    + injection Heq as <- Heq. by apply (IH pre post).
Qed.

Lemma escape_unit_head (c c' : N) (x y : jsstring) :
  escape_unit c ++ x = escape_unit c' ++ y → c = c' ∧ x = y.
Proof.
  intros H.
  destruct (escape_unit_cases c)
    as [[-> E]|[[-> E]|[[-> E]|[[-> E]|(H1 & H2 & H3 & H4 & E)]]]];
    destruct (escape_unit_cases c')
      as [[-> E']|[[-> E']|[[-> E']|[[-> E']|(H1' & H2' & H3' & H4' & E')]]]];
    rewrite ?E, ?E' in H; clear E E'; cbn in H;
    try discriminate H; simplify_eq; done.
Qed.

(** X15. [escapeHtml] loses nothing: two different strings never give
    the same escaped text. *)
Theorem escapeHtml_is_injective (a b : jsstring) :
  escapeHtml (VStr a) = escapeHtml (VStr b) → a = b.
Proof.
  unfold escapeHtml. cbn [textContent_of JS.toString].
  revert b. induction a as [|c a IH]; intros [|c' b] H.
  - done.
  - rewrite innerHTML_of_text_cons in H.
    destruct (escape_unit_cases c')
      as [[_ E]|[[_ E]|[[_ E]|[[_ E]|(_ & _ & _ & _ & E)]]]];
      rewrite E in H; discriminate H.
  - rewrite innerHTML_of_text_cons in H.
    destruct (escape_unit_cases c)
      as [[_ E]|[[_ E]|[[_ E]|[[_ E]|(_ & _ & _ & _ & E)]]]];
      rewrite E in H; discriminate H.
  - rewrite !innerHTML_of_text_cons in H.
    apply escape_unit_head in H as [-> H]. f_equal. by apply IH.
Qed.

Lemma innerHTML_of_text_length (s : jsstring) :
  length s ≤ length (innerHTML_of_text s).
Proof.
  induction s as [|c s IH]; [done|].
  rewrite innerHTML_of_text_cons, length_app. cbn [length].
  destruct (escape_unit_cases c)
    as [[_ E]|[[_ E]|[[_ E]|[[_ E]|(_ & _ & _ & _ & E)]]]];
    rewrite E; cbn [length]; lia.
Qed.

(** X16. [escapeHtml] rewrites four characters and no other: a string
    comes back unchanged exactly when it holds no [&], [<], [>] and no
    no-break space. Quotes, single or double, are among the characters it
    leaves as they are. *)
Theorem escapeHtml_changes_four_characters (s : jsstring) :
  (escapeHtml (VStr s) = s ↔ Forall (λ c, c ∉ [38; 60; 62; 160]%N) s)
  ∧ escapeHtml (VStr [34; 39]%N) = [34; 39]%N.
Proof.
  split; [|done].
  unfold escapeHtml. cbn [textContent_of JS.toString].
  induction s as [|c s IH]; [by split|].
  rewrite innerHTML_of_text_cons, Forall_cons. split.
  - intros H.
    pose proof (innerHTML_of_text_length s) as Hlen.
    destruct (escape_unit_cases c)
      as [[_ E]|[[_ E]|[[_ E]|[[_ E]|(H1 & H2 & H3 & H4 & E)]]]];
      rewrite E in H;
      try (apply (f_equal length) in H; cbn [length app] in H;
           rewrite ?length_app in H; cbn [length] in H; lia).
    injection H as H. split; [|by apply IH].
    set_unfold. naive_solver.
  - intros [Hc Hs]. apply IH in Hs.
    destruct (escape_unit_cases c)
      as [[-> E]|[[-> E]|[[-> E]|[[-> E]|(H1 & H2 & H3 & H4 & E)]]]];
      try (exfalso; apply Hc; set_unfold; tauto).
    rewrite E. cbn. by rewrite Hs.
Qed.

(** ** debounce *)

Lemma debounce_run_snoc (wait : Z) (inputs : list DebounceInput)
    (i : DebounceInput) :
  debounce_run wait (inputs ++ [i])
  = debounce_run wait inputs ≫= debounce_step wait i.
Proof. unfold debounce_run. by rewrite foldl_snoc. Qed.

Lemma invokes_snoc (inputs : list DebounceInput) (i : DebounceInput) :
  invokes (inputs ++ [i])
  = invokes inputs ++ match i with
                      | Invoke now args _ => [(now, args)]
                      | Expire _ _ => []
                      end.
Proof. unfold invokes. rewrite omap_app. by destruct i. Qed.

Lemma pending_after_clear (wait : Z) (inputs : list DebounceInput)
    (s : Debounced) :
  debounce_invariant wait inputs s →
  clearTimeout (timeout s) (timers s) = ∅.
Proof.
  intros [HJ _]. apply map_empty. intros h.
  destruct (clearTimeout (timeout s) (timers s) !! h) as [[due args]|] eqn:E;
    [|done].
  exfalso. unfold clearTimeout in E.
  destruct (timeout s) as [h0|] eqn:Ht.
  - apply lookup_delete_Some in E as [Hne E].
    destruct (HJ _ _ _ E) as [Hh _]. congruence.
  - destruct (HJ _ _ _ E) as [Hh _]. congruence.
Qed.

Lemma debounce_invariant_holds (wait : Z) (inputs : list DebounceInput)
    (s : Debounced) :
  debounce_run wait inputs = Some s → debounce_invariant wait inputs s.
Proof.
  revert s. induction inputs as [|i inputs IH] using rev_ind; intros s Hrun.
  - injection Hrun as <-. split; [|done].
    intros h due args H. cbn in H. by rewrite lookup_empty in H.
  - rewrite debounce_run_snoc in Hrun.
    destruct (debounce_run wait inputs) as [s0|]; [|done].
    specialize (IH s0 eq_refl).
    pose proof (pending_after_clear _ _ _ IH) as Hclear.
    destruct IH as [HJ HK]. cbn in Hrun.
    unfold debounce_invariant. rewrite invokes_snoc.
    destruct i as [now args handle|now handle]; cbn in Hrun.
    + rewrite Hclear in Hrun. rewrite lookup_empty in Hrun.
      rewrite decide_False in Hrun by (by intros [? ?]).
      injection Hrun as <-. cbn. split.
      * intros h due args' H.
        apply lookup_insert_Some in H as [[<- [= <- <-]]|[_ H]];
          [|by rewrite lookup_empty in H].
        split; [done|]. exists now. by rewrite last_snoc.
      * rewrite length_app, insert_empty, map_size_singleton. cbn. lia.
    + destruct (timers s0 !! handle) as [[due args]|] eqn:Hh; [|done].
      destruct (due <=? now)%Z; [|done].
      injection Hrun as <-. cbn. rewrite Hclear, delete_empty. split.
      * intros h due' args' H. by rewrite lookup_empty in H.
      * rewrite length_app, app_nil_r, map_size_empty. cbn.
        assert (size (timers s0) ≠ 0); [|lia].
        intros Hz. apply map_size_empty_inv in Hz.
        by rewrite Hz, lookup_empty in Hh.
Qed.



(** X19. [func] is never called more often than the debounced function
    itself, and never before the debounced function has been called. *)
Theorem debounce_never_multiplies_calls (wait : Z)
    (inputs : list DebounceInput) (s : Debounced) :
  debounce_run wait inputs = Some s →
  length (invoked s) ≤ length (invokes inputs)
  ∧ (invokes inputs = [] → invoked s = []).
Proof.
  intros Hrun.
  pose proof (debounce_invariant_holds _ _ _ Hrun) as [_ HK].
  split; [lia|].
  intros Hnone. rewrite Hnone in HK. cbn in HK.
  destruct (invoked s); [done|cbn in HK; lia].
Qed.

(** ** The order of the stamps *)

Lemma string_lt_irrefl (s : jsstring) : JS.string_lt s s = false.
Proof.
  induction s as [|c s IH]; [done|].
  cbn [JS.string_lt]. by rewrite N.ltb_irrefl, N.eqb_refl, IH.
Qed.

Lemma string_lt_asym (a b : jsstring) :
  JS.string_lt a b = true → JS.string_lt b a = false.
Proof.
  revert b. induction a as [|x a IH]; intros [|y b] H; try done.
  cbn [JS.string_lt] in *.
  apply orb_true_iff in H as [H|[H1 H2]%andb_true_iff].
  - apply N.ltb_lt in H.
    rewrite (proj2 (N.ltb_ge y x)) by lia.
    by rewrite (proj2 (N.eqb_neq y x)) by lia.
  - apply N.eqb_eq in H1 as ->.
    by rewrite N.ltb_irrefl, N.eqb_refl, (IH b H2).
Qed.

Lemma string_lt_app (p x y : jsstring) :
  JS.string_lt (p ++ x) (p ++ y) = JS.string_lt x y.
Proof.
  induction p as [|c p IH]; [done|].
  cbn [app JS.string_lt]. by rewrite N.ltb_irrefl, N.eqb_refl, IH.
Qed.

Lemma digits_lt (w : nat) (a b : Z) (x y : jsstring) :
  (0 ≤ a)%Z → (a < b)%Z → (b < 10 ^ Z.of_nat w)%Z →
  JS.string_lt (JS.digits w a ++ x) (JS.digits w b ++ y) = true.
Proof.
  revert a b x y. induction w as [|w IH]; intros a b x y Ha Hab Hb.
  - cbn in Hb. lia.
  - rewrite Nat2Z.inj_succ, Z.pow_succ_r in Hb by lia.
    cbn [JS.digits]. rewrite <- !app_assoc.
    assert ((a / 10 < b / 10)%Z
            ∨ ((a / 10)%Z = (b / 10)%Z ∧ (a mod 10 < b mod 10)%Z)) as [H|[H1 H2]]
      by (Z.to_euclidean_division_equations; lia).
    + apply IH; [| done |]; Z.to_euclidean_division_equations; lia.
    + rewrite H1, string_lt_app. cbn [app JS.string_lt].
      apply orb_true_iff. left. apply N.ltb_lt.
      Z.to_euclidean_division_equations; lia.
Qed.

(** Two fields of [w] digits followed by more text compare by the
    numbers first, and by what follows when the numbers are equal. *)
Lemma field_lt (w : nat) (a b : Z) (x y : jsstring) :
  (0 ≤ a < 10 ^ Z.of_nat w)%Z → (0 ≤ b < 10 ^ Z.of_nat w)%Z →
  (a < b)%Z ∨ (a = b ∧ JS.string_lt x y = true) →
  JS.string_lt (JS.digits w a ++ x) (JS.digits w b ++ y) = true.
Proof.
  intros Ha Hb [H|[-> H]].
  - apply digits_lt; lia.
  - by rewrite string_lt_app.
Qed.

Lemma year_of_era_bracket (doe : Z) :
  (0 ≤ doe ≤ 146096)%Z →
  let yoe := ((doe - doe / 1460 + doe / 36524 - doe / 146096) / 365)%Z in
  (0 ≤ yoe ≤ 399
   ∧ 365 * yoe + yoe / 4 - yoe / 100 ≤ doe
   ∧ doe < 365 * (yoe + 1) + (yoe + 1) / 4 - (yoe + 1) / 100
           + (if yoe =? 399 then 1 else 0))%Z.
Proof.
  intros H yoe. subst yoe.
  destruct ((doe - doe / 1460 + doe / 36524 - doe / 146096) / 365 =? 399)%Z
    eqn:E.
  - apply Z.eqb_eq in E. Z.to_euclidean_division_equations; lia.
  - apply Z.eqb_neq in E. Z.to_euclidean_division_equations; lia.
Qed.

(** The civil date grows with the day number, in the order year, month,
    day; months and days stay in their ranges. *)
Lemma civil_mono (day1 day2 : Z) :
  (day1 < day2)%Z →
  let '(y1, m1, d1) := JS.civil day1 in
  let '(y2, m2, d2) := JS.civil day2 in
  (1 ≤ m1 ≤ 12 ∧ 1 ≤ d1 ≤ 31 ∧ 1 ≤ m2 ≤ 12 ∧ 1 ≤ d2 ≤ 31
   ∧ (y1 < y2 ∨ (y1 = y2 ∧ (m1 < m2 ∨ (m1 = m2 ∧ d1 < d2)))))%Z.
Proof.
  intros Hlt. unfold JS.civil.
  set (z1 := (day1 + 719468)%Z). set (z2 := (day2 + 719468)%Z).
  assert (z1 < z2)%Z as Hz by (subst z1 z2; lia).
  clearbody z1 z2. clear Hlt day1 day2.
  set (era1 := (z1 / 146097)%Z). set (era2 := (z2 / 146097)%Z).
  set (doe1 := (z1 mod 146097)%Z). set (doe2 := (z2 mod 146097)%Z).
  assert (0 ≤ doe1 ≤ 146096)%Z as Hdoe1
    by (subst doe1; Z.to_euclidean_division_equations; lia).
  assert (0 ≤ doe2 ≤ 146096)%Z as Hdoe2
    by (subst doe2; Z.to_euclidean_division_equations; lia).
  assert (era1 < era2 ∨ (era1 = era2 ∧ doe1 < doe2))%Z as Hera.
  { subst era1 era2 doe1 doe2. Z.to_euclidean_division_equations; lia. }
  clearbody era1 era2 doe1 doe2. clear Hz z1 z2.
  pose proof (year_of_era_bracket doe1 Hdoe1) as Hy1.
  pose proof (year_of_era_bracket doe2 Hdoe2) as Hy2.
  cbv zeta in Hy1, Hy2.
  set (yoe1 := ((doe1 - doe1 / 1460 + doe1 / 36524 - doe1 / 146096) / 365)%Z)
    in *.
  set (yoe2 := ((doe2 - doe2 / 1460 + doe2 / 36524 - doe2 / 146096) / 365)%Z)
    in *.
  clearbody yoe1 yoe2.
  set (doy1 := (doe1 - (365 * yoe1 + yoe1 / 4 - yoe1 / 100))%Z).
  set (doy2 := (doe2 - (365 * yoe2 + yoe2 / 4 - yoe2 / 100))%Z).
  assert (0 ≤ doy1 ≤ 365)%Z as Hdoy1.
  { subst doy1. destruct (yoe1 =? 399)%Z eqn:E.
    - apply Z.eqb_eq in E. Z.to_euclidean_division_equations; lia.
    - apply Z.eqb_neq in E. Z.to_euclidean_division_equations; lia. }
  assert (0 ≤ doy2 ≤ 365)%Z as Hdoy2.
  { subst doy2. destruct (yoe2 =? 399)%Z eqn:E.
    - apply Z.eqb_eq in E. Z.to_euclidean_division_equations; lia.
    - apply Z.eqb_neq in E. Z.to_euclidean_division_equations; lia. }
  assert (era1 < era2
          ∨ (era1 = era2
             ∧ (yoe1 < yoe2 ∨ (yoe1 = yoe2 ∧ doy1 < doy2))))%Z as Hlex.
  { destruct Hera as [?|[-> Hd]]; [by left|]. right. split; [reflexivity|].
    subst doy1 doy2.
    destruct (yoe1 =? 399)%Z eqn:E1; destruct (yoe2 =? 399)%Z eqn:E2;
      rewrite ?Z.eqb_eq, ?Z.eqb_neq in *;
      Z.to_euclidean_division_equations; lia. }
  assert (0 ≤ yoe1 ≤ 399 ∧ 0 ≤ yoe2 ≤ 399)%Z as Hyr by lia.
  clearbody doy1 doy2. clear Hy1 Hy2 Hera Hdoe1 Hdoe2 doe1 doe2.
  destruct ((5 * doy1 + 2) / 153 <? 10)%Z eqn:E1;
    destruct ((5 * doy2 + 2) / 153 <? 10)%Z eqn:E2;
    rewrite ?Z.ltb_lt, ?Z.ltb_ge in *;
    repeat match goal with
           | |- context [if ?b then _ else _] => destruct b eqn:?
           end;
    rewrite ?Z.leb_le, ?Z.leb_gt in *;
    Z.to_euclidean_division_equations; lia.
Qed.

Lemma civil_in_range (day : Z) :
  (-719528 ≤ day ≤ 2932896)%Z →
  let '(y, m, d) := JS.civil day in
  (0 ≤ y ≤ 9999 ∧ 1 ≤ m ≤ 12 ∧ 1 ≤ d ≤ 31)%Z.
Proof.
  intros Hday.
  pose proof (civil_mono day (day + 1) ltac:(lia)) as Hnext.
  assert (JS.civil (-719528)%Z = (0, 1, 1)%Z) as Hlo by reflexivity.
  assert (JS.civil 2932896 = (9999, 12, 31)%Z) as Hhi by reflexivity.
  destruct (decide (day = (-719528)%Z)) as [->|Hne1];
    [clear Hnext; rewrite Hlo; lia|].
  destruct (decide (day = 2932896%Z)) as [->|Hne2];
    [clear Hnext; rewrite Hhi; lia|].
  pose proof (civil_mono (-719528)%Z day ltac:(lia)) as H1.
  pose proof (civil_mono day 2932896 ltac:(lia)) as H2.
  rewrite Hlo in H1. rewrite Hhi in H2.
  destruct (JS.civil day) as [[y m] d].
  destruct (JS.civil (day + 1)) as [[y' m'] d']. lia.
Qed.

Lemma time_of_day_mono (ms1 ms2 : Z) :
  (0 ≤ ms1)%Z → (ms1 < ms2)%Z → (ms2 < 86400000)%Z →
  (ms1 / 3600000 < ms2 / 3600000
   ∨ (ms1 / 3600000 = ms2 / 3600000
      ∧ ((ms1 / 60000) mod 60 < (ms2 / 60000) mod 60
         ∨ ((ms1 / 60000) mod 60 = (ms2 / 60000) mod 60
            ∧ ((ms1 / 1000) mod 60 < (ms2 / 1000) mod 60
               ∨ ((ms1 / 1000) mod 60 = (ms2 / 1000) mod 60
                  ∧ ms1 mod 1000 < ms2 mod 1000))))))%Z.
Proof. intros. Z.to_euclidean_division_equations; lia. Qed.

Ltac field_range :=
  change (10 ^ Z.of_nat 4)%Z with 10000%Z;
  change (10 ^ Z.of_nat 3)%Z with 1000%Z;
  change (10 ^ Z.of_nat 2)%Z with 100%Z;
  first [lia | Z.to_euclidean_division_equations; lia].

Lemma toISOString_lt (t1 t2 : Z) :
  (-62167219200000 ≤ t1)%Z → (t1 < t2)%Z → (t2 < 253402300800000)%Z →
  JS.string_lt (JS.toISOString t1) (JS.toISOString t2) = true.
Proof.
  intros Hlo Hlt Hhi. unfold JS.toISOString.
  set (day1 := (t1 / 86400000)%Z). set (day2 := (t2 / 86400000)%Z).
  set (ms1 := (t1 mod 86400000)%Z). set (ms2 := (t2 mod 86400000)%Z).
  assert (-719528 ≤ day1 ≤ 2932896 ∧ -719528 ≤ day2 ≤ 2932896
          ∧ 0 ≤ ms1 < 86400000 ∧ 0 ≤ ms2 < 86400000
          ∧ (day1 < day2 ∨ (day1 = day2 ∧ ms1 < ms2)))%Z
    as (Hd1 & Hd2 & Hm1 & Hm2 & Hcases).
  { subst day1 day2 ms1 ms2. Z.to_euclidean_division_equations; lia. }
  clearbody day1 day2 ms1 ms2. clear Hlo Hlt Hhi t1 t2.
  pose proof (civil_in_range day1 Hd1) as Hr1.
  pose proof (civil_in_range day2 Hd2) as Hr2.
  assert (∀ y, (0 ≤ y ≤ 9999)%Z → ((0 <=? y) && (y <=? 9999))%Z = true) as Hy.
  { intros y Hyy. apply andb_true_iff. rewrite !Z.leb_le. lia. }
  destruct Hcases as [Hday|[-> Hms]].
  - pose proof (civil_mono day1 day2 Hday) as Hlex.
    destruct (JS.civil day1) as [[y1 m1] d1].
    destruct (JS.civil day2) as [[y2 m2] d2].
    rewrite !Hy by lia.
    destruct Hlex as (_ & _ & _ & _ & Hlex).
    apply field_lt; [field_range..|].
    destruct Hlex as [?|[-> Hlex]]; [by left|right; split; [done|]].
    rewrite string_lt_app. apply field_lt; [field_range..|].
    destruct Hlex as [?|[-> Hlex]]; [by left|right; split; [done|]].
    rewrite string_lt_app. apply field_lt; [field_range..|]. by left.
  - destruct (JS.civil day2) as [[y m] d]. rewrite !Hy by lia.
    pose proof (time_of_day_mono ms1 ms2 ltac:(lia) Hms ltac:(lia))
      as Htime.
    rewrite !string_lt_app.
    apply field_lt; [field_range..|].
    destruct Htime as [?|[-> Htime]]; [by left|right; split; [done|]].
    rewrite string_lt_app. apply field_lt; [field_range..|].
    destruct Htime as [?|[-> Htime]]; [by left|right; split; [done|]].
    rewrite string_lt_app. apply field_lt; [field_range..|].
    destruct Htime as [?|[-> Htime]]; [by left|right; split; [done|]].
    rewrite string_lt_app. apply field_lt; [field_range..|]. by left.
Qed.

(** Between the years 0000 and 9999 the stamps compare as strings the
    way the clock readings compare as numbers. *)
Lemma toISOString_order (t1 t2 : Z) :
  (-62167219200000 ≤ t1 < 253402300800000)%Z →
  (-62167219200000 ≤ t2 < 253402300800000)%Z →
  JS.string_lt (JS.toISOString t1) (JS.toISOString t2) = (t1 <? t2)%Z.
Proof.
  intros H1 H2. destruct (t1 <? t2)%Z eqn:E.
  - apply Z.ltb_lt in E. apply toISOString_lt; lia.
  - apply Z.ltb_ge in E. destruct (decide (t1 = t2)) as [->|Hne].
    + apply string_lt_irrefl.
    + apply string_lt_asym, toISOString_lt; lia.
Qed.

(** Between the years 0000 and 9999 two readings have the same stamp
    only when they are the same reading. *)
Lemma toISOString_inj (t1 t2 : Z) :
  (-62167219200000 ≤ t1 < 253402300800000)%Z →
  (-62167219200000 ≤ t2 < 253402300800000)%Z →
  JS.toISOString t1 = JS.toISOString t2 → t1 = t2.
Proof.
  intros H1 H2 Heq.
  destruct (Z.lt_trichotomy t1 t2) as [Hlt|[Heq'|Hgt]]; [|done|].
  - pose proof (toISOString_order t1 t2 H1 H2) as Ho.
    rewrite Heq, string_lt_irrefl in Ho.
    apply Z.ltb_lt in Hlt. congruence.
  - pose proof (toISOString_order t2 t1 H2 H1) as Ho.
    rewrite Heq, string_lt_irrefl in Ho.
    apply Z.ltb_lt in Hgt. congruence.
Qed.

(** X20. When the clock reads a time between the years 0000 and 9999
    at each of two successive updates of an identifier, the [lastUpdated]
    stamp each update leaves in the cache is the stamp of its own
    reading, and the two stamps compare with [<] on strings exactly as
    the two readings compare: the later reading gives the greater stamp,
    the same reading the same stamp, and a clock that went backwards a
    smaller stamp. *)
Theorem successive_updates_order_their_stamps
    (callback_body : Callback → Profile → option JSError)
    (userId data1 data2 : JSValue) (status1 status2 : Z)
    (body1 body2 : JSValue) (t1 t2 : Z) (st : Store) :
  ok status1 = true → ok status2 = true →
  (-62167219200000 ≤ t1 < 253402300800000)%Z →
  (-62167219200000 ≤ t2 < 253402300800000)%Z →
  ∃ p1 st1 tr1 p2 st2 tr2 stamp1 stamp2,
    updateUserProfile callback_body userId data1
      (Response status1 (Some body1)) t1 st = (Returns p1, st1, tr1)
    ∧ updateUserProfile callback_body userId data2
        (Response status2 (Some body2)) t2 st1 = (Returns p2, st2, tr2)
    ∧ lastUpdated_at (cacheKey userId) st1 = Some (VStr stamp1)
    ∧ lastUpdated_at (cacheKey userId) st2 = Some (VStr stamp2)
    ∧ stamp1 = JS.toISOString t1
    ∧ stamp2 = JS.toISOString t2
    ∧ JS.string_lt stamp1 stamp2 = (t1 <? t2)%Z
    ∧ JS.string_lt stamp2 stamp1 = (t2 <? t1)%Z
    ∧ (stamp1 = stamp2 ↔ t1 = t2).
Proof.
  intros Hok1 Hok2 Ht1 Ht2.
  pose proof (updateUserProfile_unfold callback_body userId data1
                (Response status1 (Some body1)) t1 st) as Hrun1.
  rewrite (updateUserProfile_resume_ok callback_body userId status1 body1 t1
             st Hok1) in Hrun1.
  set (p1 := mergedData _ body1 t1) in Hrun1.
  set (st1 := store_with (cacheKey userId) p1 st) in Hrun1.
  pose proof (updateUserProfile_unfold callback_body userId data2
                (Response status2 (Some body2)) t2 st1) as Hrun2.
  rewrite (updateUserProfile_resume_ok callback_body userId status2 body2 t2
             st1 Hok2) in Hrun2.
  eexists _, _, _, _, _, _, (JS.toISOString t1), (JS.toISOString t2).
  split; [exact Hrun1|]. split; [exact Hrun2|]. split_and!.
  - subst st1. rewrite lastUpdated_at_store_with. subst p1.
    rewrite mergedData_lookup. by rewrite decide_True.
  - rewrite lastUpdated_at_store_with, mergedData_lookup.
    by rewrite decide_True.
  - reflexivity.
  - reflexivity.
  - by apply toISOString_order.
  - by apply toISOString_order.
  - split; [by apply toISOString_inj | by intros ->].
Qed.

(** ** Names can be told apart by their avatar URL *)

Lemma hex_digit_inj (a b : N) :
  (a < 16)%N → (b < 16)%N → JS.hex_digit a = JS.hex_digit b → a = b.
Proof.
  unfold JS.hex_digit. intros Ha Hb.
  destruct (a <? 10)%N eqn:Ea; destruct (b <? 10)%N eqn:Eb;
    rewrite ?N.ltb_lt, ?N.ltb_ge in *; lia.
Qed.

Lemma percent_inj (o o' : N) (x y : jsstring) :
  (o < 256)%N → (o' < 256)%N →
  JS.percent o ++ x = JS.percent o' ++ y → o = o' ∧ x = y.
Proof.
  intros Ho Ho' H. unfold JS.percent in H. cbn in H.
  injection H as H1 H2 ->.
  apply hex_digit_inj in H1; [|div_lia..].
  apply hex_digit_inj in H2; [|div_lia..].
  split; [div_lia|done].
Qed.

Lemma escape_head (cp cp' : N) (x y : jsstring) :
  (cp < 1114112)%N → (cp' < 1114112)%N →
  JS.escape cp ++ x = JS.escape cp' ++ y → cp = cp' ∧ x = y.
Proof.
  intros Hcp Hcp' H. unfold JS.escape, JS.utf8 in H.
  destruct (cp <? 128)%N eqn:E1; destruct (cp' <? 128)%N eqn:E1';
    [| destruct (cp' <? 2048)%N eqn:E2'; [|destruct (cp' <? 65536)%N eqn:E3']
     | destruct (cp <? 2048)%N eqn:E2; [|destruct (cp <? 65536)%N eqn:E3]
     | destruct (cp <? 2048)%N eqn:E2; [|destruct (cp <? 65536)%N eqn:E3];
       (destruct (cp' <? 2048)%N eqn:E2';
        [|destruct (cp' <? 65536)%N eqn:E3']) ];
    rewrite ?N.ltb_lt, ?N.ltb_ge in *;
    cbn [List.map concat] in H; rewrite <- ?app_assoc in H;
    repeat (apply percent_inj in H as [? H]; [|div_lia..]);
    cbn [app] in H;
    lazymatch type of H with
    | x = y => subst x; split; [div_lia|done]
    | _ => exfalso; div_lia
    end.
Qed.

Lemma escape_starts (cp : N) : ∃ tl, JS.escape cp = 37%N :: tl.
Proof.
  unfold JS.escape, JS.utf8. repeat case_match; by eexists.
Qed.

(** How [encodeURIComponent] consumes the front of a string. *)
Lemma encodeURIComponent_cons (c : N) (r e : jsstring) :
  Forall (λ u, (u < 65536)%N) (c :: r) →
  JS.encodeURIComponent (c :: r) = Some e →
  (JS.unescaped c = true
   ∧ ∃ e', JS.encodeURIComponent r = Some e' ∧ e = c :: e')
  ∨ (JS.unescaped c = false
     ∧ ∃ cp r' e',
         (cp < 1114112)%N
         ∧ JS.encodeURIComponent r' = Some e'
         ∧ e = JS.escape cp ++ e'
         ∧ Forall (λ u, (u < 65536)%N) r'
         ∧ length r' < length (c :: r)
         ∧ ((cp < 65536 ∧ c = cp ∧ r = r')%N
            ∨ ∃ d, (65536 ≤ cp)%N ∧ r = d :: r'
                   ∧ (55296 ≤ c ≤ 56319)%N ∧ (56320 ≤ d ≤ 57343)%N
                   ∧ cp = ((c - 55296) * 1024 + (d - 56320) + 65536)%N)).
Proof.
  intros [Hc Hr]%Forall_cons He. cbn [JS.encodeURIComponent] in He.
  destruct (JS.unescaped c) eqn:Hu.
  - left. split; [done|].
    destruct (JS.encodeURIComponent r) as [e'|]; [|done].
    injection He as <-. by exists e'.
  - right. split; [done|].
    destruct (JS.is_trail c); [done|].
    destruct (JS.is_lead c) eqn:Hl.
    + destruct r as [|d r']; [done|].
      apply Forall_cons in Hr as [Hd Hr'].
      destruct (JS.is_trail d) eqn:Ht; [|done].
      destruct (JS.encodeURIComponent r') as [e'|] eqn:He'; [|done].
      injection He as <-.
      unfold JS.is_lead, JS.is_trail, JS.in_range in Hl, Ht.
      apply andb_true_iff in Hl as [Hl1 Hl2], Ht as [Ht1 Ht2].
      apply N.leb_le in Hl1, Hl2, Ht1, Ht2.
      eexists _, r', e'. split_and!; try done; try (cbn; lia).
      right. exists d. split_and!; try done; lia.
    + destruct (JS.encodeURIComponent r) as [e'|] eqn:He'; [|done].
      injection He as <-.
      exists c, r, e'. split_and!; try done; try (cbn; lia).
      left. by split_and!.
Qed.

Lemma encodeURIComponent_inj (a b e : jsstring) :
  Forall (λ u, (u < 65536)%N) a → Forall (λ u, (u < 65536)%N) b →
  JS.encodeURIComponent a = Some e → JS.encodeURIComponent b = Some e →
  a = b.
Proof.
  remember (length a) as n eqn:Hn.
  revert a b e Hn. induction n as [n IH] using lt_wf_ind.
  intros a b e -> Ha Hb Hea Heb.
  destruct a as [|c r]; destruct b as [|c' r'].
  - done.
  - injection Hea as <-.
    destruct (encodeURIComponent_cons c' r' [] Hb Heb)
      as [(_ & e' & _ & ?)|(_ & cp & ? & e' & _ & _ & He & _)]; [done|].
    destruct (escape_starts cp) as [tl Htl]. by rewrite Htl in He.
  - injection Heb as <-.
    destruct (encodeURIComponent_cons c r [] Ha Hea)
      as [(_ & e' & _ & ?)|(_ & cp & ? & e' & _ & _ & He & _)]; [done|].
    destruct (escape_starts cp) as [tl Htl]. by rewrite Htl in He.
  - destruct (encodeURIComponent_cons c r e Ha Hea)
      as [(Hu & e1 & He1 & ->)
         |(Hu & cp & s1 & e1 & Hcp & He1 & -> & Hs1 & Hlen & Hshape)];
      destruct (encodeURIComponent_cons c' r' _ Hb Heb)
        as [(Hu' & e2 & He2 & Heq)
           |(Hu' & cp' & s2 & e2 & Hcp' & He2 & Heq & Hs2 & Hlen' & Hshape')].
    + injection Heq as -> ->. f_equal.
      apply Forall_cons in Ha as [_ Ha], Hb as [_ Hb].
      by apply (IH (length r) ltac:(cbn; lia) r r' e2 eq_refl).
    + destruct (escape_starts cp') as [tl Htl]. rewrite Htl in Heq.
      injection Heq as -> _. by vm_compute in Hu.
    + destruct (escape_starts cp) as [tl Htl]. rewrite Htl in Heq.
      injection Heq as <- _. by vm_compute in Hu'.
    + apply escape_head in Heq as [-> ->]; [|done..].
      assert (s1 = s2) as ->
        by by apply (IH (length s1) ltac:(lia) s1 s2 e2 eq_refl).
      destruct Hshape as [(H1 & -> & ->)|(d & H1 & -> & Hc & Hd & Hpair)];
        destruct Hshape'
          as [(H1' & -> & ->)|(d' & H1' & -> & Hc' & Hd' & Hpair')];
        try done; try lia.
      assert (c = c' ∧ d = d') as [-> ->] by lia. done.
Qed.

(** X21. Two different names never have the same avatar URL: from the
    URL [generateAvatarURL] returns, the name it was given is determined.
    Names are strings of UTF-16 code units. *)
Theorem avatar_url_determines_the_name
    (unicode_upper : jsstring → jsstring) (a b url : jsstring) :
  Forall (λ u, (u < 65536)%N) a → Forall (λ u, (u < 65536)%N) b →
  generateAvatarURL unicode_upper (VStr a) = inr url →
  generateAvatarURL unicode_upper (VStr b) = inr url →
  a = b.
Proof.
  intros Ha Hb Hua Hub. unfold generateAvatarURL in Hua, Hub.
  destruct (JS.encodeURIComponent a) as [ea|] eqn:Hea; [|done].
  destruct (JS.encodeURIComponent b) as [eb|] eqn:Heb; [|done].
  injection Hua as <-. injection Hub as Heq.
  apply app_inv_tail in Heq as ->.
  by apply (encodeURIComponent_inj a b ea).
Qed.

(** ** More concrete runs *)

(** A fresh store, user 1, and Jane's record in a 200 reply. *)
Lemma fetch_succeeds_run :
  cache new_UserAPI !! cacheKey (param (VNum 1) (VNum 1)) = None
  ∧ ∃ p st' tr,
      fetchUserProfile plain_upper (VNum 1) (Response 200 (Some jane)) t0
        new_UserAPI
      = (Returns p, st', tr).
Proof.
  split; [reflexivity|].
  apply (fetchUserProfile_succeeds_iff plain_upper (VNum 1)
           (Response 200 (Some jane)) t0 new_UserAPI eq_refl).
  exists 200%Z, jane, (js "Jane Doe"). by split_and!.
Defined.

(** A 404 on a fresh store: the console line carries the status. *)
Lemma fetch_logs_the_status_run :
  cache new_UserAPI !! cacheKey (param (VNum 1) (VNum 1)) = None
  ∧ ok 404 = false
  ∧ fetchUserProfile plain_upper (VNum 1) (Response 404 None) t0 new_UserAPI
    = (Throws fetch_error, new_UserAPI,
       [Fetch (get_request (VNum 1));
        ConsoleError (js "Error fetching user profile:")
          (Error_ (js "HTTP error! status: 404"))]).
Proof.
  split; [reflexivity|]. split; [reflexivity|].
  destruct (fetchUserProfile_logs_the_cause plain_upper (VNum 1) t0
              new_UserAPI eq_refl) as (_ & H & _).
  exact (H 404%Z None eq_refl).
Defined.

(** An update of user 1 and a tick leave the entry of user 2 alone. *)
Lemma writes_touch_one_key_run :
  js "user_2" ≠ cacheKey (VNum 1)
  ∧ ∃ r st' tr,
      updateUserProfile silent (VNum 1) renamed
        (Response 200 (Some renamed)) t0 sample_store = (r, st', tr)
      ∧ cache st' !! js "user_2" = cache sample_store !! js "user_2"
      ∧ subscribers st' = subscribers sample_store.
Proof.
  assert (js "user_2" ≠ cacheKey (VNum 1)) as Hne.
  { intros H. vm_compute in H. discriminate H. }
  split; [exact Hne|].
  destruct (writes_touch_one_key plain_upper silent sample_store
              (js "user_2")) as (_ & H & _).
  destruct (updateUserProfile silent (VNum 1) renamed
              (Response 200 (Some renamed)) t0 sample_store)
    as [[r st'] tr] eqn:Hrun.
  exists r, st', tr. split; [reflexivity|].
  exact (H (VNum 1) renamed _ t0 r st' tr Hrun Hne).
Defined.

(** Users 1 and 2 have different keys. *)
Lemma cacheKey_run :
  JS.isSafeInteger 1 ∧ JS.isSafeInteger 2 ∧ (1 ≠ 2)%Z
  ∧ cacheKey (VNum 1) ≠ cacheKey (VNum 2).
Proof.
  assert (JS.isSafeInteger 1) as H1 by (unfold JS.isSafeInteger; lia).
  assert (JS.isSafeInteger 2) as H2 by (unfold JS.isSafeInteger; lia).
  assert (1 ≠ 2)%Z as Hne by lia.
  split; [exact H1|]. split; [exact H2|]. split; [exact Hne|].
  exact (cacheKey_separates_integers 1 2 H1 H2 Hne).
Defined.

(** Callback 7 subscribed to the sample store and disposed of. *)
Lemma subscribe_unsubscribe_run :
  (7 ∉ subscribers sample_store)
  ∧ (d ← subscribe 7; unsubscribe d) sample_store
    = (Returns tt, sample_store, []).
Proof.
  assert (7 ∉ subscribers sample_store) as H.
  { cbn. rewrite !not_elem_of_cons. split_and!; try done.
    apply not_elem_of_nil. }
  split; [exact H|].
  exact (subscribe_unsubscribe_round_trip 7 sample_store H).
Defined.

(** Two ticks on the sample store: its three subscribers are called in
    order at each tick, first with the record of the first tick, then
    with the record of the second, which is the one left in the cache. *)
Lemma ticks_run :
  cache sample_store !! js "user_1" = Some sample_profile
  ∧ ∃ st' tr first second,
      simulateRealTimeUpdates_ticks silent
        [(t0, (t0 + 1)%Z); ((t0 + 30000)%Z, (t0 + 30001)%Z)] sample_store
      = (Returns tt, st', tr)
      ∧ calls tr
        = [(1, first); (2, first); (3, first);
           (1, second); (2, second); (3, second)]
      ∧ cache st' !! js "user_1" = Some second
      ∧ second !! js "name" = sample_profile !! js "name"
      ∧ length (calls tr) = 6.
Proof.
  split; [reflexivity|].
  destruct (ticks_keep_the_cache_keys silent
              [(t0, (t0 + 1)%Z); ((t0 + 30000)%Z, (t0 + 30001)%Z)]
              sample_store)
    as (st' & tr & Hrun & _ & _ & _ & _ & H).
  destruct (H sample_profile eq_refl) as (Hcalls & Hu & Hf & Hlen).
  eexists st', tr, _, _. split; [exact Hrun|]. split; [exact Hcalls|].
  split; [exact Hu|]. split; [|exact Hlen].
  apply (Hf ((t0 + 30000)%Z, (t0 + 30001)%Z));
    intros E; vm_compute in E; discriminate E.
Defined.

(** A fetch of user 1 after an update of user 1. *)
Lemma fetch_after_update_run :
  VNum 1 ≠ VUndefined ∧ ok 200 = true
  ∧ ∃ merged st1 tr1,
      updateUserProfile silent (VNum 1) renamed
        (Response 200 (Some renamed)) t0 sample_store
      = (Returns merged, st1, tr1)
      ∧ fetchUserProfile plain_upper (VNum 1) Rejected t0 st1
        = (Returns merged, st1, []).
Proof.
  split; [done|]. split; [reflexivity|].
  exact (fetch_after_update_hits_the_cache plain_upper silent (VNum 1)
           renamed 200 renamed t0 Rejected t0 sample_store
           ltac:(done) eq_refl).
Defined.

Lemma jane_doe_code_units : Forall (λ c, (c < 65536)%N) (js "Jane Doe").
Proof. vm_compute js. repeat (apply Forall_cons; split; [done|]). apply Forall_nil_2. Qed.

(** The avatar URL of ["Jane Doe"] is ASCII. *)
Lemma avatar_url_safe_run :
  Forall (λ c, (c < 65536)%N) (js "Jane Doe")
  ∧ ∃ url,
      generateAvatarURL plain_upper (VStr (js "Jane Doe")) = inr url
      ∧ Forall (λ c, (c < 128)%N) url.
Proof.
  split; [exact jane_doe_code_units|].
  eexists. split; [reflexivity|].
  destruct (avatar_url_is_url_safe plain_upper (js "Jane Doe") _
              jane_doe_code_units eq_refl) as (e & _ & _ & _ & H).
  exact H.
Defined.

(** ["Jane"] goes into the URL as it is. *)
Lemma avatar_url_plain_run :
  Forall (λ c, JS.unescaped c = true) (js "Jane")
  ∧ generateAvatarURL plain_upper (VStr (js "Jane"))
    = inr (avatarTemplate (js "Jane")).
Proof.
  assert (Forall (λ c, JS.unescaped c = true) (js "Jane")) as H.
  { vm_compute js. repeat (apply Forall_cons; split; [done|]).
    apply Forall_nil_2. }
  split; [exact H|].
  exact (avatar_url_keeps_plain_names plain_upper (js "Jane") H).
Defined.

(** The ampersand of ["a&b<c"] comes out as a reference. *)
Lemma escapeHtml_run :
  escapeHtml (VStr (js "a&b<c")) = js "a" ++ 38%N :: js "amp;b&lt;c"
  ∧ ∃ tail rest, tail ∈ entity_tails ∧ js "amp;b&lt;c" = tail ++ rest.
Proof.
  split; [reflexivity|].
  destruct (escapeHtml_has_no_markup (VStr (js "a&b<c"))) as (_ & _ & _ & H).
  exact (H (js "a") (js "amp;b&lt;c") eq_refl).
Defined.

Lemma escapeHtml_injective_run :
  escapeHtml (VStr (js "x<y")) = escapeHtml (VStr (js "x<y"))
  ∧ js "x<y" = js "x<y".
Proof.
  split; [reflexivity|].
  exact (escapeHtml_is_injective (js "x<y") (js "x<y") eq_refl).
Defined.

(** A sentence with quotes and no markup comes back as it is. *)
Lemma escapeHtml_plain_run :
  Forall (λ c, c ∉ [38; 60; 62; 160]%N) (js "it's fine")
  ∧ escapeHtml (VStr (js "it's fine")) = js "it's fine".
Proof.
  assert (Forall (λ c, c ∉ [38; 60; 62; 160]%N) (js "it's fine")) as H.
  { vm_compute js.
    repeat (apply Forall_cons; split;
            [rewrite !not_elem_of_cons; split_and!; try done;
             apply not_elem_of_nil|]).
    apply Forall_nil_2. }
  split; [exact H|].
  destruct (escapeHtml_changes_four_characters (js "it's fine")) as [Hiff _].
  exact (proj2 Hiff H).
Defined.



Lemma debounce_count_run :
  ∃ s,
    debounce_run 250
      [Invoke 0 [VNum 1] 1; Invoke 100 [VNum 2] 2; Expire 350 2]
    = Some s
    ∧ length (invoked s) ≤ 2.
Proof.
  eexists. split; [reflexivity|].
  destruct (debounce_never_multiplies_calls 250
              [Invoke 0 [VNum 1] 1; Invoke 100 [VNum 2] 2; Expire 350 2]
              _ eq_refl) as [H _].
  exact H.
Defined.

(** Two updates of user 1, five milliseconds apart. *)
Lemma successive_updates_run :
  ok 200 = true
  ∧ (-62167219200000 ≤ t0 < 253402300800000)%Z
  ∧ (-62167219200000 ≤ t0 + 5 < 253402300800000)%Z
  ∧ ∃ p1 st1 tr1 p2 st2 tr2,
      updateUserProfile silent (VNum 1) renamed
        (Response 200 (Some renamed)) t0 sample_store = (Returns p1, st1, tr1)
      ∧ updateUserProfile silent (VNum 1) renamed
          (Response 200 (Some renamed)) (t0 + 5) st1 = (Returns p2, st2, tr2)
      ∧ lastUpdated_at (cacheKey (VNum 1)) st1
        = Some (VStr (js "2026-11-02T00:00:00.000Z"))
      ∧ lastUpdated_at (cacheKey (VNum 1)) st2
        = Some (VStr (js "2026-11-02T00:00:00.005Z"))
      ∧ JS.string_lt (js "2026-11-02T00:00:00.000Z")
          (js "2026-11-02T00:00:00.005Z") = true
      ∧ JS.string_lt (js "2026-11-02T00:00:00.005Z")
          (js "2026-11-02T00:00:00.000Z") = false.
Proof.
  assert (-62167219200000 ≤ t0 < 253402300800000)%Z as H1
    by (unfold t0; lia).
  assert (-62167219200000 ≤ t0 + 5 < 253402300800000)%Z as H2
    by (unfold t0; lia).
  split; [reflexivity|]. split; [exact H1|]. split; [exact H2|].
  destruct (successive_updates_order_their_stamps silent (VNum 1) renamed
              renamed 200 200 renamed renamed t0 (t0 + 5) sample_store
              eq_refl eq_refl H1 H2)
    as (p1 & st1 & tr1 & p2 & st2 & tr2 & a & b & Hrun1 & Hrun2 & Ha & Hb
        & -> & -> & Hlt & Hgt & _).
  exists p1, st1, tr1, p2, st2, tr2.
  split; [exact Hrun1|]. split; [exact Hrun2|].
  split; [exact Ha|]. split; [exact Hb|].
  split; [exact Hlt | exact Hgt].
Defined.

Lemma avatar_url_determines_run :
  Forall (λ u, (u < 65536)%N) (js "Jane Doe")
  ∧ generateAvatarURL plain_upper (VStr (js "Jane Doe"))
    = inr (avatarTemplate (js "Jane%20Doe"))
  ∧ js "Jane Doe" = js "Jane Doe".
Proof.
  split; [exact jane_doe_code_units|]. split; [reflexivity|].
  exact (avatar_url_determines_the_name plain_upper (js "Jane Doe")
           (js "Jane Doe") _ jane_doe_code_units jane_doe_code_units
           eq_refl eq_refl).
Defined.

(** Jane's record has no [phone] and no [company]: the fetched record
    holds [undefined] and the empty string there. *)
Lemma fetched_record_run :
  cache new_UserAPI !! cacheKey (param (VNum 1) (VNum 1)) = None
  ∧ ok 200 = true
  ∧ jane_fields !! js "name" = Some (VStr (js "Jane Doe"))
  ∧ JS.isWellFormed (js "Jane Doe") = true
  ∧ ∃ p tr,
      fetchUserProfile plain_upper (VNum 1)
        (Response 200 (Some (VObj jane_fields))) t0 new_UserAPI
      = (Returns p, store_with (js "user_1") p new_UserAPI, tr)
      ∧ p !! js "phone" = Some VUndefined
      ∧ p !! js "company" = Some (VStr []).
Proof.
  split; [reflexivity|]. split; [reflexivity|]. split; [reflexivity|].
  split; [reflexivity|].
  destruct (fetched_record_fields plain_upper (VNum 1) 200 jane_fields
              (js "Jane Doe") t0 new_UserAPI eq_refl eq_refl eq_refl eq_refl)
    as (p & e & company & Hrun & _ & _ & _ & _ & _ & Hf & Hc & _ & _ & He).
  eexists p, _. split; [exact Hrun|]. split.
  - rewrite (Hf (js "phone")); [reflexivity|].
    rewrite !elem_of_cons. tauto.
  - rewrite Hc, He; [reflexivity|].
    intros c v Hcompany. vm_compute in Hcompany. discriminate Hcompany.
Defined.
